(** * flows.load_image: instrument dispatch and image normalisation

    A shallow embedding of [src/flows/load_image.py]: the image container
    [FlowsImage] with its mask discipline and edge detection, the
    instrument classes with their class-level match criteria, the ordered
    registry [instruments] and the loader [load_image].

    Conventions of the embedding.
    - A Python exception is a value [Raise e] of the [result] type; a
      function that cannot raise is a plain function.
    - numpy arrays live in a store and are named by locations, so that a
      view built with [copy=False] shares the arrays it was built over.
    - A float64 sample is a [fval]: an exact rational, or one of the three
      non-finite values.
    - A FITS header is a finite map from card names to card values. *)

From Stdlib Require Import QArith Ascii String.
From stdpp Require Import gmap strings list fin_maps.

Close Scope Q_scope.
Open Scope string_scope.
Open Scope list_scope.

(* ===================================================================== *)
(** ** Python exceptions *)
(* ===================================================================== *)

Inductive exn : Type :=
  | ValueError (msg : string)
  | RuntimeError (msg : string)
  | AttributeError (msg : string)
  | KeyError (key : string)
  | IndexError (msg : string)
  | TypeError (msg : string)
  | External (msg : string).   (* raised inside astropy / tendrils *)

Inductive result (A : Type) : Type :=
  | Ok (a : A)
  | Raise (e : exn).
Arguments Ok {A} a.
Arguments Raise {A} e.

(** The error monad, with stdpp's [x ← m; k] notation. *)
#[global] Instance result_ret : MRet result := fun A a => Ok a.
#[global] Instance result_bind : MBind result := fun A B k m =>
  match m with
  | Ok a => k a
  | Raise e => Raise e
  end.

Definition raises {A} (m : result A) : bool :=
  match m with Ok _ => false | Raise _ => true end.

(* ===================================================================== *)
(** ** float64 samples *)
(* ===================================================================== *)

Inductive fval : Type :=
  | Fin (q : Q)
  | NaN
  | PInf
  | NInf.

(** [np.isfinite] *)
Definition isfinite (x : fval) : bool :=
  match x with Fin _ => true | _ => false end.

(** IEEE [==]: a NaN equals nothing, itself included. *)
Definition feq (x y : fval) : bool :=
  match x, y with
  | Fin a, Fin b => Qeq_bool a b
  | PInf, PInf => true
  | NInf, NInf => true
  | _, _ => false
  end.

(** IEEE [<=]: false as soon as one side is a NaN. *)
Definition fle (x y : fval) : bool :=
  match x, y with
  | NaN, _ | _, NaN => false
  | NInf, _ => true
  | _, PInf => true
  | Fin a, Fin b => Qle_bool a b
  | _, _ => false
  end.

Definition fzero : fval := Fin 0.

(* ===================================================================== *)
(** ** Two-dimensional arrays *)
(* ===================================================================== *)

Module Grid.

(** A 2-D array is the list of its rows. *)
Abbreviation grid A := (list (list A)).

Definition nrows {A} (g : grid A) : nat := length g.
Definition ncols {A} (g : grid A) : nat :=
  match g with [] => 0 | r :: _ => length r end.
Definition shape {A} (g : grid A) : nat * nat := (nrows g, ncols g).

(** Every row of a [h] by [w] array has [w] entries. *)
Definition has_shape {A} (h w : nat) (g : grid A) : Prop :=
  length g = h ∧ Forall (fun r => length r = w) g.

(** [g[r, c]], with [d] outside the array. *)
Definition at_ {A} (d : A) (g : grid A) (r c : nat) : A :=
  nth c (nth r g []) d.

(** The array whose entry at [(r, c)] is [f r c (g[r, c])]. *)
Definition mapi {A B} (f : nat → nat → A → B) (g : grid A) : grid B :=
  imap (fun r row => imap (fun c x => f r c x) row) g.

Definition tabulate {A} (h w : nat) (f : nat → nat → A) : grid A :=
  map (fun r => map (fun c => f r c) (seq 0 w)) (seq 0 h).

(** [np.zeros_like(g, dtype='bool')] *)
Definition zeros_like {A} (g : grid A) : grid bool :=
  map (map (fun _ => false)) g.

(** [g[sel] = v] for an index set [sel] (a slice, a row or column, or a
    boolean selector): selected entries are overwritten, others kept. *)
Definition assign {A} (sel : nat → nat → bool) (v : A) (g : grid A) : grid A :=
  mapi (fun r c x => if sel r c then v else x) g.

Definition column {A} (d : A) (g : grid A) (c : nat) : list A :=
  map (fun row => nth c row d) g.

Definition same_shape {A B} (g : grid A) (m : grid B) : bool :=
  bool_decide (map length g = map length m).

End Grid.
Export Grid.

(* ===================================================================== *)
(** ** Python string methods *)
(* ===================================================================== *)

Module PyStr.

(** [s.startswith(p)] *)
Fixpoint startswith (p s : string) : bool :=
  match p, s with
  | EmptyString, _ => true
  | String a p', String b s' => Ascii.eqb a b && startswith p' s'
  | String _ _, EmptyString => false
  end.

(** [sub in s] *)
Fixpoint contains (sub s : string) : bool :=
  startswith sub s ||
  match s with
  | EmptyString => false
  | String _ s' => contains sub s'
  end.

Definition upper_ascii (a : ascii) : ascii :=
  let n := nat_of_ascii a in
  if (97 <=? n)%nat && (n <=? 122)%nat then ascii_of_nat (n - 32) else a.
Definition lower_ascii (a : ascii) : ascii :=
  let n := nat_of_ascii a in
  if (65 <=? n)%nat && (n <=? 90)%nat then ascii_of_nat (n + 32) else a.

Fixpoint smap (f : ascii → ascii) (s : string) : string :=
  match s with
  | EmptyString => EmptyString
  | String a s' => String (f a) (smap f s')
  end.

(** [s.upper()], [s.lower()] on ASCII text *)
Definition upper : string → string := smap upper_ascii.
Definition lower : string → string := smap lower_ascii.

(** The characters [str.strip()] removes: tab to carriage return, the
    four separators 0x1c to 0x1f, and the space. *)
Definition is_ws (a : ascii) : bool :=
  let n := nat_of_ascii a in
  ((9 <=? n)%nat && (n <=? 13)%nat) || ((28 <=? n)%nat && (n <=? 32)%nat).

Fixpoint lstrip (s : string) : string :=
  match s with
  | EmptyString => EmptyString
  | String a s' => if is_ws a then lstrip s' else s
  end.

Definition srev (s : string) : string :=
  string_of_list_ascii (rev (list_ascii_of_string s)).

(** [s.strip()] *)
Definition strip (s : string) : string := srev (lstrip (srev (lstrip s))).

(** [s.replace(old, new)] for a non-empty [old]: occurrences are replaced
    from the left and do not overlap.  [skip] counts the characters of
    an occurrence already replaced that are still to be dropped. *)
Fixpoint replace_from (skip : nat) (old new s : string) : string :=
  match s with
  | EmptyString => EmptyString
  | String a s' =>
      match skip with
      | S k => replace_from k old new s'
      | O =>
          if startswith old s
          then new +:+ replace_from (String.length old - 1) old new s'
          else String a (replace_from O old new s')
      end
  end.
Definition replace (old new s : string) : string := replace_from 0 old new s.

(** [s.split(sep)[-1]] for a one-character separator: the text after the
    last separator, the whole string when there is none. *)
Fixpoint split_last (sep : ascii) (s : string) : string :=
  match s with
  | EmptyString => EmptyString
  | String a s' =>
      if Ascii.eqb a sep then split_last sep s'
      else if contains (String sep EmptyString) s' then split_last sep s'
      else s
  end.

End PyStr.

(* ===================================================================== *)
(** ** FITS headers *)
(* ===================================================================== *)

(** The value of a header card: text, or a number (Python compares an
    int, a float and a bool by numerical value). *)
Inductive hval : Type :=
  | HStr (s : string)
  | HNum (q : Q).

Abbreviation Header := (gmap string hval).

(** Python [==] on card values. *)
Definition hval_eq (x y : hval) : bool :=
  match x, y with
  | HStr a, HStr b => String.eqb a b
  | HNum a, HNum b => Qeq_bool a b
  | _, _ => false
  end.

(** Python [==] on the results of two [dict.get]: [None] equals [None]
    and nothing else. *)
Definition opt_eq (x y : option hval) : bool :=
  match x, y with
  | Some a, Some b => hval_eq a b
  | None, None => true
  | _, _ => false
  end.

(** [hdr.get(key) == v] *)
Definition get_eq (hdr : Header) (key : string) (v : hval) : bool :=
  opt_eq (hdr !! key) (Some v).

(** Python truthiness of a card value. *)
Definition truthy (x : hval) : bool :=
  match x with
  | HStr s => negb (String.eqb s "")
  | HNum q => negb (Qeq_bool q 0)
  end.

(** [hdr[key]] *)
Definition getitem (hdr : Header) (key : string) : result hval :=
  match hdr !! key with
  | Some v => Ok v
  | None => Raise (KeyError key)
  end.

(** A card the code uses as text.  The FITS standard makes these cards
    character-valued; a numeric value is outside the input type and is
    reported as a [TypeError]. *)
Definition as_str (v : hval) : result string :=
  match v with
  | HStr s => Ok s
  | HNum _ => Raise (TypeError "str expected")
  end.

(** [hdr.get(key, default)] for a text card. *)
Definition get_str (hdr : Header) (key default : string) : result string :=
  match hdr !! key with
  | Some v => as_str v
  | None => Ok default
  end.

(* ===================================================================== *)
(** ** External collaborators *)
(* ===================================================================== *)

(** One header-data unit of an opened file: its extension name, its header
    and its pixel data.  Units are taken to carry two-dimensional data. *)
Record HDU : Type := {
  hdu_name : string;
  hdu_header : Header;
  hdu_data : grid fval;
}.

(** What the module imports from astropy, tendrils and [flows.filters].
    None of it is under verification: the operations are opaque and may
    raise. *)
Class Astro : Type := {
  Site : Type;
  Location : Type;
  Time : Type;
  WCS : Type;
  SkyCoord : Type;
  (** [tendrils.api.get_site(siteid)], [tendrils.api.sites.get_all_sites()] *)
  api_get_site : Z → result Site;
  api_get_all_sites : result (list Site);
  (** [s['site_keyword']], [{'siteid': None}], [site['EarthLocation']] *)
  site_keyword : Site → string;
  nonesite : Site;
  site_location : option Site → result Location;
  (** [coords.EarthLocation.from_geodetic(lat=, lon=, height=)] *)
  from_geodetic : hval → hval → hval → result Location;
  (** [Time(value, format=, scale='utc', location=)] *)
  Time_new : hval → string → Location → result Time;
  (** [t + seconds * u.second] *)
  Time_add_seconds : Time → Q → result Time;
  (** [start + 0.5 * (stop - start)] *)
  Time_midpoint : Time → Time → result Time;
  (** [WCS(header=, relax=True)], [w.all_world2pix([[ra, dec]], 0).flatten()] *)
  WCS_new : Header → result WCS;
  all_world2pix : WCS → fval * fval → result (fval * fval);
  (** [coords.SkyCoord(ra= * u.deg, dec= * u.deg, frame='icrs')] and
      [(c.icrs.ra.deg, c.icrs.dec.deg)] *)
  SkyCoord_deg : fval → fval → result SkyCoord;
  icrs_radec : SkyCoord → fval * fval;
  (** [obstime.tdb + obstime.light_travel_time(target, ephemeris='jpl')] *)
  tdb_plus_light_travel_time : Time → SkyCoord + list fval → result Time;
  (** [hdul.index_of(name)], [None] when it raises [KeyError] *)
  index_of : list HDU → string → option nat;
  (** the keys of [flows.filters.FILTERS] *)
  FILTERS_keys : list string;
}.

(* ===================================================================== *)
(** ** The array store *)
(* ===================================================================== *)

Definition loc : Type := nat.

(** float64 arrays and boolean arrays, by location. *)
Record store : Type := Store {
  floats : gmap loc (grid fval);
  bools : gmap loc (grid bool);
}.

Definition empty_store : store := Store ∅ ∅.

Definition float_at (σ : store) (l : loc) : grid fval := floats σ !!! l.
Definition bool_at (σ : store) (l : loc) : grid bool := bools σ !!! l.

Definition put_float (l : loc) (g : grid fval) (σ : store) : store :=
  Store (<[l := g]> (floats σ)) (bools σ).
Definition put_bool (l : loc) (g : grid bool) (σ : store) : store :=
  Store (floats σ) (<[l := g]> (bools σ)).

(** A new array object. *)
Definition alloc_float (g : grid fval) (σ : store) : loc * store :=
  let l := fresh (dom (floats σ)) in (l, put_float l g σ).
Definition alloc_bool (g : grid bool) (σ : store) : loc * store :=
  let l := fresh (dom (bools σ)) in (l, put_bool l g σ).

(* ===================================================================== *)
(** ** FlowsImage *)
(* ===================================================================== *)

Record InstrumentDefaults : Type := {
  radius : Q;
  fwhm : Q;
  fwhm_min : Q;
  fwhm_max : Q;
}.

Definition InstrumentDefaults_new : InstrumentDefaults :=
  {| radius := 10; fwhm := 6; fwhm_min := 3.5; fwhm_max := 18 |}.

(** [np.ma.masked_array(data=, mask=, copy=False)]: a view that shares the
    data array and the mask array it is given. *)
Record MaskedArray : Type := {
  ma_data : loc;
  ma_mask : loc;
}.

(* ===================================================================== *)
(** ** Edge detection: [FlowsImage.get_edge_mask] *)
(* ===================================================================== *)

Fixpoint index_of_false (l : list bool) : option nat :=
  match l with
  | [] => None
  | b :: l' => if b then S <$> index_of_false l' else Some 0%nat
  end.

(** [np.argmin] along a line of booleans: the index of the first minimum,
    that is of the first [False], and 0 when the line is all [True]. *)
Definition argmin (l : list bool) : nat := default 0%nat (index_of_false l).

(** First index of the slice [-b:] of a line of [n] entries. *)
Definition neg_start (n b : nat) : nat :=
  match b with O => 0 | _ => n - b end.

(** The two stores of one iteration of the column loop. *)
Definition edge_column (mask1 : grid bool) (h : nat) (a b : list nat)
    (mask : grid bool) (col : nat) : grid bool :=
  let mask :=
    if at_ false mask1 0 col
    then assign (fun r c => (c =? col)%nat && (r <? nth col a 0)%nat) true mask
    else mask in
  if at_ false mask1 (h - 1) col
  then assign (fun r c => (c =? col)%nat && (neg_start h (nth col b 0) <=? r)%nat)
         true mask
  else mask.

(** The two stores of one iteration of the row loop. *)
Definition edge_row (mask1 : grid bool) (w : nat) (a b : list nat)
    (mask : grid bool) (row : nat) : grid bool :=
  let mask :=
    if at_ false mask1 row 0
    then assign (fun r c => (r =? row)%nat && (c <? nth row a 0)%nat) true mask
    else mask in
  if at_ false mask1 row (w - 1)
  then assign (fun r c => (r =? row)%nat && (neg_start w (nth row b 0) <=? c)%nat)
         true mask
  else mask.

Definition get_edge_mask (img : grid fval) (value : fval) : result (grid bool) :=
  let h := nrows img in
  let w := ncols img in
  let mask1 := map (map (fun p => feq p value)) img in
  let mask := zeros_like img in
  (* Mask entire rows and columns which are only the value *)
  let all_rows := map (forallb id) mask1 in
  let all_cols := map (fun c => forallb id (column false mask1 c)) (seq 0 w) in
  let mask := assign (fun r _ => nth r all_rows false) true mask in
  let mask := assign (fun _ c => nth c all_cols false) true mask in
  (* argmin along an axis of extent 0 raises *)
  if (h =? 0)%nat || (w =? 0)%nat
  then Raise (ValueError "attempt to get argmin of an empty sequence")
  else
    (* uneven edges column-wise *)
    let a := map (fun c => argmin (column false mask1 c)) (seq 0 w) in
    let b := map (fun c => argmin (rev (column false mask1 c))) (seq 0 w) in
    let mask := fold_left (edge_column mask1 h a b) (seq 0 w) mask in
    (* uneven edges row-wise *)
    let a := map argmin mask1 in
    let b := map (fun row => argmin (rev row)) mask1 in
    let mask := fold_left (edge_row mask1 w a b) (seq 0 h) mask in
    Ok mask.

(* ===================================================================== *)
(** ** The container and its methods *)
(* ===================================================================== *)

(** [a[i]] on an axis of extent [n]: a negative index counts from the end. *)
Definition norm_index (n : nat) (i : Z) : result nat :=
  if bool_decide (0 ≤ i < Z.of_nat n)%Z then Ok (Z.to_nat i)
  else if bool_decide (- Z.of_nat n ≤ i < 0)%Z then Ok (Z.to_nat (i + Z.of_nat n))
  else Raise (IndexError "index out of bounds").

(** An operand of shape [src] broadcasts into an array of shape [dst]. *)
Definition broadcastable (src dst : nat * nat) : bool :=
  ((src.1 =? dst.1)%nat || (src.1 =? 1)%nat) &&
  ((src.2 =? dst.2)%nat || (src.2 =? 1)%nat).

(** Entry [(r, c)] of [g] broadcast: an axis of extent 1 is repeated. *)
Definition bat {A} (d : A) (g : grid A) (r c : nat) : A :=
  at_ d g (if (nrows g =? 1)%nat then 0%nat else r)
          (if (ncols g =? 1)%nat then 0%nat else c).

Section Container.
Context `{Astro}.

Record FlowsImage : Type := {
  image : loc;
  header : Header;
  mask : loc;
  peakmax : option Z;
  exptime : option hval;
  instrument_defaults : option InstrumentDefaults;
  site : option Site;
  obstime : option Time;
  photfilter : option hval;
  wcs : option WCS;
  clean : option MaskedArray;
  shape_ : nat * nat;
  ob_type : option string;
}.

Definition set_mask (m : loc) (s : FlowsImage) : FlowsImage :=
  {| image := image s; header := header s; mask := m; peakmax := peakmax s;
     exptime := exptime s; instrument_defaults := instrument_defaults s;
     site := site s; obstime := obstime s; photfilter := photfilter s;
     wcs := wcs s; clean := clean s; shape_ := shape_ s; ob_type := ob_type s |}.

Definition set_clean (v : option MaskedArray) (s : FlowsImage) : FlowsImage :=
  {| image := image s; header := header s; mask := mask s; peakmax := peakmax s;
     exptime := exptime s; instrument_defaults := instrument_defaults s;
     site := site s; obstime := obstime s; photfilter := photfilter s;
     wcs := wcs s; clean := v; shape_ := shape_ s; ob_type := ob_type s |}.

(** [self.mask |= ~np.isfinite(self.image)], in place on the mask array. *)
Definition check_finite (self : FlowsImage) (σ : store) : result store :=
  let img := float_at σ (image self) in
  let m := bool_at σ (mask self) in
  if broadcastable (shape img) (shape m)
  then Ok (put_bool (mask self)
             (mapi (fun r c x => x || negb (isfinite (bat NaN img r c))) m) σ)
  else Raise (ValueError "operands could not be broadcast together").

(** The dataclass constructor followed by [__post_init__]. *)
Definition FlowsImage_new (img : loc) (hdr : Header) (msk : option loc)
    (σ : store) : result (FlowsImage * store) :=
  w ← WCS_new hdr;
  let '(m, σ) :=
    match msk with
    | Some m => (m, σ)
    | None => alloc_bool (zeros_like (float_at σ img)) σ
    end in
  let self :=
    {| image := img; header := hdr; mask := m; peakmax := None;
       exptime := None; instrument_defaults := None; site := None;
       obstime := None; photfilter := None; wcs := Some w; clean := None;
       shape_ := shape (float_at σ img); ob_type := None |} in
  σ ← check_finite self σ;
  Ok (self, σ).

Definition update_mask (m : loc) (self : FlowsImage) (σ : store)
    : result (FlowsImage * store) :=
  let self := set_mask m self in
  σ ← check_finite self σ;
  Ok (self, σ).

(** [self.image[self.mask] = np.NaN] writes into the pixel array; the
    boolean index has to have the shape of the array.  [self.clean]
    becomes a view over the same two arrays. *)
Definition create_masked_image (self : FlowsImage) (σ : store)
    : result (FlowsImage * store) :=
  let img := float_at σ (image self) in
  let m := bool_at σ (mask self) in
  if same_shape img m
  then
    let σ := put_float (image self) (assign (at_ false m) NaN img) σ in
    Ok (set_clean (Some {| ma_data := image self; ma_mask := mask self |}) self, σ)
  else Raise (IndexError "boolean index did not match indexed array").

(** [for row in y: self.image[row] = value] *)
Fixpoint set_edge_rows_to_value (y : list Z) (value : fval)
    (self : FlowsImage) (σ : store) : result store :=
  match y with
  | [] => Ok σ
  | row :: y' =>
      let img := float_at σ (image self) in
      i ← norm_index (nrows img) row;
      set_edge_rows_to_value y' value self
        (put_float (image self) (assign (fun r _ => (r =? i)%nat) value img) σ)
  end.

(** [for col in x: self.image[:, col] = value] *)
Fixpoint set_edge_columns_to_value (x : list Z) (value : fval)
    (self : FlowsImage) (σ : store) : result store :=
  match x with
  | [] => Ok σ
  | col :: x' =>
      let img := float_at σ (image self) in
      j ← norm_index (ncols img) col;
      set_edge_columns_to_value x' value self
        (put_float (image self) (assign (fun _ c => (c =? j)%nat) value img) σ)
  end.

Definition apply_edge_mask (y x : option (list Z)) (apply_existing_mask_first : bool)
    (self : FlowsImage) (σ : store) : result (FlowsImage * store) :=
  '(self, σ) ← (if apply_existing_mask_first then create_masked_image self σ
                else Ok (self, σ));
  σ ← match y with
      | Some y => set_edge_rows_to_value y fzero self σ
      | None => Ok σ
      end;
  σ ← match x with
      | Some x => set_edge_columns_to_value x fzero self σ
      | None => Ok σ
      end;
  m ← get_edge_mask (float_at σ (image self)) fzero;
  let '(l, σ) := alloc_bool m σ in
  create_masked_image (set_mask l self) σ.

End Container.

(* ===================================================================== *)
(** ** Instrument classes: class-level attributes *)
(* ===================================================================== *)

(** The class attributes of [Instrument] that subclasses override. *)
Record ClassAttrs : Type := {
  cls_peakmax : option Z;
  cls_siteid : option Z;
  cls_telescope : string;
  cls_instrument : string;
  cls_origin : string;
  cls_unique_headers : option (gmap string hval);
}.

Inductive inst_cls : Type :=
  | LCOGT | HAWKI | ALFOSC | NOTCAM | PS1 | Liverpool | Omega2000 | Swope
  | Swope_newheader | Dupont | RetroCam | Baade | Sofi | EFOSC | AstroNIRCam
  | OmegaCam | AndiCam | PairTel | TJO_MEIA2 | TJO_MEIA3 | RATIR | AFOSC
  | Schmidt.

#[global] Instance inst_cls_eq_dec : EqDecision inst_cls.
Proof. solve_decision. Defined.

(** The attributes as declared on [Instrument] itself. *)
Definition Instrument_attrs : ClassAttrs :=
  {| cls_peakmax := None; cls_siteid := None; cls_telescope := "";
     cls_instrument := ""; cls_origin := ""; cls_unique_headers := None |}.

(** Attribute lookup on a class: the assignments of the class body, the
    inherited value otherwise.  In the bodies of [AFOSC] and [Schmidt] the
    lines for [telescope] and [instrument] (and [origin] in [Schmidt]) are
    annotations without a value: they assign nothing, and lookup finds the
    empty strings of [Instrument]. *)
Definition attrs (c : inst_cls) : ClassAttrs :=
  let base := Instrument_attrs in
  match c with
  | LCOGT =>
      {| cls_peakmax := Some 60000%Z; cls_siteid := None;
         cls_telescope := cls_telescope base; cls_instrument := cls_instrument base;
         cls_origin := "LCOGT"; cls_unique_headers := cls_unique_headers base |}
  | HAWKI =>
      {| cls_peakmax := cls_peakmax base; cls_siteid := Some 2%Z;
         cls_telescope := "ESO-VLT-U4"; cls_instrument := "HAWKI";
         cls_origin := "ESO-PARANAL";
         cls_unique_headers := Some {[ "PRODCATG" := HStr "SCIENCE.MEFIMAGE" ]} |}
  | ALFOSC =>
      {| cls_peakmax := Some 80000%Z; cls_siteid := Some 5%Z;
         cls_telescope := "NOT"; cls_instrument := "ALFOSC";
         cls_origin := cls_origin base;
         cls_unique_headers := Some {[ "OBS_MODE" := HStr "imaging" ]} |}
  | NOTCAM =>
      {| cls_peakmax := cls_peakmax base; cls_siteid := Some 5%Z;
         cls_telescope := "NOT"; cls_instrument := "NOTCAM";
         cls_origin := cls_origin base;
         cls_unique_headers := Some {[ "OBS_MODE" := HStr "imaging" ]} |}
  | PS1 =>
      {| cls_peakmax := cls_peakmax base; cls_siteid := Some 6%Z;
         cls_telescope := cls_telescope base; cls_instrument := cls_instrument base;
         cls_origin := cls_origin base;
         cls_unique_headers :=
           Some (<[ "FPA.TELESCOPE" := HStr "PS1" ]>
                   {[ "FPA.INSTRUMENT" := HStr "GPC1" ]}) |}
  | Liverpool =>
      {| cls_peakmax := cls_peakmax base; cls_siteid := Some 8%Z;
         cls_telescope := "Liverpool Telescope"; cls_instrument := cls_instrument base;
         cls_origin := cls_origin base; cls_unique_headers := cls_unique_headers base |}
  | Omega2000 =>
      {| cls_peakmax := cls_peakmax base; cls_siteid := Some 9%Z;
         cls_telescope := "CA 3.5m"; cls_instrument := "Omega2000";
         cls_origin := cls_origin base; cls_unique_headers := cls_unique_headers base |}
  | Swope | Swope_newheader =>
      {| cls_peakmax := cls_peakmax base; cls_siteid := Some 10%Z;
         cls_telescope := "SWO"; cls_instrument := cls_instrument base;
         cls_origin := cls_origin base; cls_unique_headers := cls_unique_headers base |}
  | Dupont =>
      {| cls_peakmax := cls_peakmax base; cls_siteid := Some 14%Z;
         cls_telescope := "DUP"; cls_instrument := "Direct/SITe2K-1";
         cls_origin := cls_origin base;
         cls_unique_headers := Some {[ "SITENAME" := HStr "LCO" ]} |}
  | RetroCam =>
      {| cls_peakmax := cls_peakmax base; cls_siteid := Some 16%Z;
         cls_telescope := "DUP"; cls_instrument := "RetroCam";
         cls_origin := cls_origin base; cls_unique_headers := cls_unique_headers base |}
  | Baade =>
      {| cls_peakmax := cls_peakmax base; cls_siteid := Some 11%Z;
         cls_telescope := "Baade"; cls_instrument := "FourStar";
         cls_origin := cls_origin base;
         cls_unique_headers := Some {[ "SITENAME" := HStr "LCO" ]} |}
  | Sofi =>
      {| cls_peakmax := cls_peakmax base; cls_siteid := Some 12%Z;
         cls_telescope := cls_telescope base; cls_instrument := "SOFI";
         cls_origin := cls_origin base; cls_unique_headers := cls_unique_headers base |}
  | EFOSC =>
      {| cls_peakmax := cls_peakmax base; cls_siteid := Some 15%Z;
         cls_telescope := "ESO-NTT"; cls_instrument := "EFOSC";
         cls_origin := cls_origin base; cls_unique_headers := cls_unique_headers base |}
  | AstroNIRCam =>
      {| cls_peakmax := cls_peakmax base; cls_siteid := Some 13%Z;
         cls_telescope := "SAI-2.5"; cls_instrument := "ASTRONIRCAM";
         cls_origin := cls_origin base; cls_unique_headers := cls_unique_headers base |}
  | OmegaCam =>
      {| cls_peakmax := cls_peakmax base; cls_siteid := Some 18%Z;
         cls_telescope := cls_telescope base; cls_instrument := "OMEGACAM";
         cls_origin := cls_origin base; cls_unique_headers := cls_unique_headers base |}
  | AndiCam =>
      {| cls_peakmax := cls_peakmax base; cls_siteid := Some 20%Z;
         cls_telescope := cls_telescope base; cls_instrument := "ANDICAM-CCD";
         cls_origin := cls_origin base;
         cls_unique_headers := Some {[ "OBSERVAT" := HStr "CTIO" ]} |}
  | PairTel =>
      {| cls_peakmax := cls_peakmax base; cls_siteid := Some 21%Z;
         cls_telescope := "1.3m PAIRITEL"; cls_instrument := "2MASS Survey cam";
         cls_origin := cls_origin base; cls_unique_headers := cls_unique_headers base |}
  | TJO_MEIA2 =>
      {| cls_peakmax := cls_peakmax base; cls_siteid := Some 22%Z;
         cls_telescope := "TJO"; cls_instrument := "MEIA2";
         cls_origin := cls_origin base; cls_unique_headers := cls_unique_headers base |}
  | TJO_MEIA3 =>
      {| cls_peakmax := cls_peakmax base; cls_siteid := Some 22%Z;
         cls_telescope := "TJO"; cls_instrument := "MEIA3";
         cls_origin := cls_origin base; cls_unique_headers := cls_unique_headers base |}
  | RATIR =>
      {| cls_peakmax := cls_peakmax base; cls_siteid := Some 23%Z;
         cls_telescope := "OAN/SPM Harold L. Johnson 1.5-meter";
         cls_instrument := cls_instrument base;
         cls_origin := cls_origin base; cls_unique_headers := cls_unique_headers base |}
  | AFOSC =>
      {| cls_peakmax := Some 50000%Z; cls_siteid := Some 25%Z;
         cls_telescope := cls_telescope base; cls_instrument := cls_instrument base;
         cls_origin := cls_origin base; cls_unique_headers := cls_unique_headers base |}
  | Schmidt =>
      {| cls_peakmax := Some 56000%Z; cls_siteid := Some 26%Z;
         cls_telescope := cls_telescope base; cls_instrument := cls_instrument base;
         cls_origin := cls_origin base;
         cls_unique_headers := Some {[ "SITELAT" := HNum 45.8494444%Q ]} |}
  end.

(* ===================================================================== *)
(** ** Identification and the registry *)
(* ===================================================================== *)

(** [Instrument.identifier], the inherited predicate. *)
Definition Instrument_identifier (cls : ClassAttrs)
    (telescope origin instrument : string) (hdr : Header) : bool :=
  let unique_conds :=
    forallb id
      match cls_unique_headers cls with
      | Some uh =>
          map (fun key => opt_eq (hdr !! key) (uh !! key)) (elements (dom uh))
      | None => [true]
      end in
  forallb id
    [ if negb (String.eqb (cls_telescope cls) "")
      then PyStr.contains (cls_telescope cls) telescope else true;
      if negb (String.eqb (cls_origin cls) "")
      then String.eqb (cls_origin cls) origin else true;
      if negb (String.eqb (cls_instrument cls) "")
      then PyStr.contains (cls_instrument cls) instrument else true;
      unique_conds ].

(** [cls.identifier(telescope, origin, instrument, hdr)] with the three
    overriding classes. *)
Definition identifier (c : inst_cls)
    (telescope origin instrument : string) (hdr : Header) : bool :=
  match c with
  | Swope =>
      PyStr.startswith (cls_telescope (attrs c)) (PyStr.upper telescope)
      && get_eq hdr "SITENAME" (HStr "LCO")
  | Swope_newheader =>
      PyStr.startswith "SWO" (PyStr.upper telescope) && String.eqb origin "ziggy"
  | Sofi =>
      String.eqb instrument (cls_instrument (attrs c))
      && bool_decide (telescope ∈ ["ESO-NTT"; "other"])
  | _ => Instrument_identifier (attrs c) telescope origin instrument hdr
  end.

(** The registry, in insertion order. *)
Definition instruments : list (string * inst_cls) :=
  [ ("LCOGT", LCOGT); ("HAWKI", HAWKI); ("ALFOSC", ALFOSC); ("NOTCAM", NOTCAM);
    ("PS1", PS1); ("Liverpool", Liverpool); ("Omega2000", Omega2000);
    ("Swope", Swope); ("Swope_newheader", Swope_newheader); ("Dupont", Dupont);
    ("Retrocam", RetroCam); ("Baade", Baade); ("Sofi", Sofi); ("EFOSC", EFOSC);
    ("AstroNIRCam", AstroNIRCam); ("OmegaCam", OmegaCam); ("AndiCam", AndiCam);
    ("PairTel", PairTel); ("TJO_Meia2", TJO_MEIA2); ("TJO_Meia3", TJO_MEIA3);
    ("RATIR", RATIR); ("Schmidt", Schmidt); ("AFOSC", AFOSC) ].

(* ===================================================================== *)
(** ** Python helpers on card values *)
(* ===================================================================== *)

(** The receiver of a [str] method: any other value has no such method. *)
Definition str_method (v : option hval) : result string :=
  match v with
  | Some (HStr s) => Ok s
  | _ => Raise (AttributeError "object has no such str method")
  end.

(** [table.get(key, default)] for a dict literal with text keys. *)
Definition dict_get (table : gmap string string) (key default : hval) : hval :=
  match key with
  | HStr k => match table !! k with Some v => HStr v | None => default end
  | HNum _ => default
  end.

Fixpoint digits_value (acc : Z) (s : string) : option Z :=
  match s with
  | EmptyString => Some acc
  | String a s' =>
      let n := nat_of_ascii a in
      if (48 <=? n)%nat && (n <=? 57)%nat
      then digits_value (10 * acc + Z.of_nat (n - 48)) s'
      else None
  end.

(** [int(v)]: a number is truncated towards zero, text is read as an
    optionally signed run of decimal digits. *)
Definition py_int (v : hval) : result Z :=
  match v with
  | HNum q => Ok (Z.quot (Qnum q) (Z.pos (Qden q)))
  | HStr s =>
      let bad := Raise (ValueError "invalid literal for int()") in
      match PyStr.strip s with
      | EmptyString => bad
      | String a rest =>
          let '(sign, ds) :=
            if Ascii.eqb a "-" then ((-1)%Z, rest)
            else if Ascii.eqb a "+" then (1%Z, rest)
            else (1%Z, String a rest) in
          match ds with
          | EmptyString => bad
          | _ => match digits_value 0 ds with
                 | Some n => Ok (sign * n)%Z
                 | None => bad
                 end
          end
      end
  end.

Fixpoint str_repeat (n : nat) (s : string) : string :=
  match n with O => EmptyString | S n' => s +:+ str_repeat n' s end.

(** [v * n] for an int [n] *)
Definition py_mul_int (v : hval) (n : Z) : hval :=
  match v with
  | HNum q => HNum (q * inject_Z n)%Q
  | HStr s => HStr (str_repeat (Z.to_nat n) s)
  end.

(** A loop whose body may raise. *)
Fixpoint foldlM {A B} (f : A → B → result A) (l : list B) (a : A) : result A :=
  match l with
  | [] => Ok a
  | b :: l' => a' ← f a b; foldlM f l' a'
  end.

(** [l[i]] for [i >= 0] *)
Definition list_getitem {A} (l : list A) (i : nat) : result A :=
  match l !! i with
  | Some x => Ok x
  | None => Raise (IndexError "list index out of range")
  end.

(* ===================================================================== *)
(** ** Exposure time and filter name *)
(* ===================================================================== *)

(** [Instrument.get_exptime] *)
Definition Instrument_get_exptime (hdr : Header) : result hval :=
  match hdr !! "EXPTIME" with
  | None => Raise (ValueError "Image exposure time could not be extracted")
  | Some exptime => Ok exptime
  end.

(** [get_exptime] of each class, on [self.image.header]. *)
Definition get_exptime (c : inst_cls) (hdr : Header) : result hval :=
  match c with
  | Baade =>
      exptime ← Instrument_get_exptime hdr;
      v ← getitem hdr "NCOMBINE";
      n ← py_int v;
      Ok (py_mul_int exptime n)
  | AstroNIRCam =>
      match hdr !! "FULL_EXP" with
      | Some exptime => Ok exptime
      | None => Instrument_get_exptime hdr
      end
  | _ => Instrument_get_exptime hdr
  end.

(** One iteration of the search over alternate filter cards in [ALFOSC]
    and [NOTCAM]: [isopen] is computed before the card is tested. *)
Definition scan_filter_card (hdr : Header) (filters_used : list string)
    (check_headers : string) : result (list string) :=
  s ← str_method (hdr !! check_headers);
  let isopen := negb (String.eqb (PyStr.lower (PyStr.strip s)) "open") in
  if truthy (HStr s) && isopen
  then Ok (filters_used ++ [PyStr.strip s])%list
  else Ok filters_used.

(** The same iteration in [Sofi], where the card is tested first. *)
Definition scan_filter_card_guarded (hdr : Header) (filters_used : list string)
    (check_headers : string) : result (list string) :=
  match hdr !! check_headers with
  | None => Ok filters_used
  | Some v =>
      if truthy v
      then
        s ← str_method (Some v);
        if negb (String.eqb (PyStr.lower (PyStr.strip s)) "open")
        then Ok (filters_used ++ [PyStr.strip s])%list
        else Ok filters_used
      else Ok filters_used
  end.

Definition ALFOSC_filter_table : gmap string string :=
  list_to_map
    [ ("B Bes", "B"); ("V Bes", "V"); ("R Bes", "R"); ("g SDSS", "gp");
      ("r SDSS", "rp"); ("i SDSS", "ip"); ("i int", "ip"); ("u SDSS", "up");
      ("z SDSS", "zp") ].

Definition ALFOSC_alt_table : gmap string string :=
  list_to_map
    [ ("B_Bes 440_100", "B"); ("V_Bes 530_80", "V"); ("R_Bes 650_130", "R");
      ("g'_SDSS 480_145", "gp"); ("r'_SDSS 618_148", "rp");
      ("i'_SDSS 771_171", "ip"); ("i_int 797_157", "ip");
      ("z'_SDSS 832_LP", "zp") ].

Definition ALFOSC_alt_cards : list string := ["ALFLTNM"; "FAFLTNM"; "FBFLTNM"].

Definition NOTCAM_table : gmap string string := list_to_map [ ("Ks", "K") ].

Definition NOTCAM_alt_cards : list string := ["NCFLTNM1"; "NCFLTNM2"].

Definition undetermined_filter : exn :=
  RuntimeError "Could not determine filter used.".

Definition ALFOSC_get_photfilter (hdr : Header) : result hval :=
  match hdr !! "FILTER" with
  | Some f =>
      s ← str_method (Some f);
      Ok (dict_get ALFOSC_filter_table (HStr (PyStr.replace "_" " " s)) f)
  | None =>
      filters_used ← foldlM (scan_filter_card hdr) ALFOSC_alt_cards [];
      match filters_used with
      | [label] =>
          Ok (dict_get ALFOSC_alt_table (HStr (PyStr.replace "  " " " label))
                (HStr label))
      | _ => Raise undetermined_filter
      end
  end.

Definition NOTCAM_get_photfilter (hdr : Header) : result hval :=
  match hdr !! "FILTER" with
  | Some _ => Raise (RuntimeError "NOTCAM: Filter keyword defined")
  | None =>
      filters_used ← foldlM (scan_filter_card hdr) NOTCAM_alt_cards [];
      match filters_used with
      | [label] => Ok (dict_get NOTCAM_table (HStr label) (HStr label))
      | _ => Raise undetermined_filter
      end
  end.

(** The pattern [table.get(hdr[key], hdr[key])]. *)
Definition translate_card (table : list (string * string)) (hdr : Header)
    (key : string) : result hval :=
  f ← getitem hdr key;
  Ok (dict_get (list_to_map table) f f).

Definition Sofi_get_photfilter (hdr : Header) : result hval :=
  let photfilter_translate : gmap string string := list_to_map [ ("Ks", "K") ] in
  match hdr !! "FILTER" with
  | Some f => Ok (dict_get photfilter_translate f f)
  | None =>
      filters_used ←
        foldlM (scan_filter_card_guarded hdr)
          ["ESO INS FILT1 ID"; "ESO INS FILT2 ID"] [];
      match filters_used with
      | [label] => Ok (dict_get photfilter_translate (HStr label) (HStr label))
      | _ => Raise undetermined_filter
      end
  end.

(** [filt[0]] *)
Definition first_char (s : string) : result string :=
  match s with
  | EmptyString => Raise (IndexError "string index out of range")
  | String a _ => Ok (String a EmptyString)
  end.

Section Filters.
Context `{Astro}.

Definition filter_not_found : exn := ValueError "Could not find filter".

(** [AFOSC.get_photfilter]; [Schmidt.get_photfilter] is the same without
    the last alternative ([by_initial = false]). *)
Definition sloan_get_photfilter (by_initial : bool) (hdr : Header)
    : result hval :=
  f ← getitem hdr "FILTER";
  filt ← str_method (Some f);
  if PyStr.contains "sloan" (PyStr.lower filt)
  then c ← first_char filt; Ok (HStr (c +:+ "p"))
  else if bool_decide (filt ∈ FILTERS_keys) then Ok (HStr filt)
  else if bool_decide (filt +:+ "p" ∈ FILTERS_keys) then Ok (HStr (filt +:+ "p"))
  else if by_initial
  then
    c ← first_char filt;
    if bool_decide (c ∈ FILTERS_keys) then Ok (HStr c)
    else Raise filter_not_found
  else Raise filter_not_found.

(** [get_photfilter] of each class, on [self.image.header]. *)
Definition get_photfilter (c : inst_cls) (hdr : Header) : result hval :=
  match c with
  | LCOGT => translate_card [("zs", "zp")] hdr "FILTER"
  | ALFOSC => ALFOSC_get_photfilter hdr
  | NOTCAM => NOTCAM_get_photfilter hdr
  | PS1 =>
      translate_card
        [("g.00000", "gp"); ("r.00000", "rp"); ("i.00000", "ip"); ("z.00000", "zp")]
        hdr "FPA.FILTER"
  | Liverpool =>
      translate_card
        [ ("Bessel-B", "B"); ("Bessell-B", "B"); ("Bessel-V", "V");
          ("Bessell-V", "V"); ("SDSS-U", "up"); ("SDSS-G", "gp");
          ("SDSS-R", "rp"); ("SDSS-I", "ip"); ("SDSS-Z", "zp") ]
        hdr "FILTER1"
  | Swope | Swope_newheader | Dupont =>
      translate_card [("u", "up"); ("g", "gp"); ("r", "rp"); ("i", "ip")]
        hdr "FILTER"
  | RetroCam => translate_card [("Yc", "Y"); ("Hc", "H"); ("Jo", "J")] hdr "FILTER"
  | Baade => translate_card [("Ks", "K"); ("J1", "Y")] hdr "FILTER"
  | Sofi => Sofi_get_photfilter hdr
  | EFOSC =>
      translate_card
        [("g782", "gp"); ("r784", "rp"); ("i705", "ip"); ("B639", "B"); ("V641", "V")]
        hdr "FILTER"
  | AstroNIRCam => translate_card [("H_Open", "H"); ("K_Open", "K")] hdr "FILTER"
  | OmegaCam => translate_card [("i_SDSS", "ip")] hdr "ESO INS FILT1 NAME"
  | AndiCam => getitem hdr "CCDFLTID"
  | PairTel => translate_card [("j", "J"); ("h", "H"); ("k", "K")] hdr "FILTER"
  | RATIR =>
      (* the three labels tested are exactly the keys of the table *)
      translate_card [("Z", "zp"); ("r", "rp"); ("i", "ip")] hdr "FILTER"
  | AFOSC => sloan_get_photfilter true hdr
  | Schmidt => sloan_get_photfilter false hdr
  | HAWKI | Omega2000 | TJO_MEIA2 | TJO_MEIA3 => getitem hdr "FILTER"
  end.

End Filters.

(* ===================================================================== *)
(** ** Site, observation time, extension and mask *)
(* ===================================================================== *)

Definition as_number (v : hval) : result Q :=
  match v with
  | HNum q => Ok q
  | HStr _ => Raise (TypeError "unsupported operand type(s)")
  end.

Definition half : Q := 1 # 2.

(** The chained comparison [-0.5 <= p <= n - 0.5]; the right operand is
    evaluated only when the left comparison holds. *)
Definition within (p : fval) (n : hval) : result bool :=
  if fle (Fin (- half)) p
  then q ← as_number n; Ok (fle p (Fin (q - half)))
  else Ok false.

(** [-0.5 <= pix[0] <= s[1] - 0.5 and -0.5 <= pix[1] <= s[0] - 0.5]
    with [s = [NAXIS2, NAXIS1]]. *)
Definition target_on (pix : fval * fval) (naxis2 naxis1 : hval) : result bool :=
  inx ← within (fst pix) naxis1;
  if inx : bool then within (snd pix) naxis2 else Ok false.

Section Loader.
Context `{Astro}.

(** A target as callers pass it: a [SkyCoord] or a tuple. *)
Definition target : Type := (SkyCoord + list fval)%type.

Definition verify_coordinates (target_coords : option target)
    : result (option SkyCoord) :=
  match target_coords with
  | None => Ok None
  | Some (inl c) => Ok (Some c)
  | Some (inr [ra; dec]) => c ← SkyCoord_deg ra dec; Ok (Some c)
  | Some (inr _) => Ok None
  end.

(** The body of [for k in range(1, 5)] in [HAWKI.get_ext], over the
    extensions still to be tried. *)
Fixpoint HAWKI_search (hdul : list HDU) (target_radec : fval * fval)
    (ks : list nat) : result (option nat) :=
  match ks with
  | [] => Ok None
  | k :: ks' =>
      hdu ← list_getitem hdul k;
      w ← WCS_new (hdu_header hdu);
      naxis2 ← getitem (hdu_header hdu) "NAXIS2";
      naxis1 ← getitem (hdu_header hdu) "NAXIS1";
      pix ← all_world2pix w target_radec;
      hit ← target_on pix naxis2 naxis1;
      if hit : bool then Ok (Some k) else HAWKI_search hdul target_radec ks'
  end.

Definition HAWKI_get_ext (hdul : list HDU) (target_coords : option target)
    (fallback_extension : option nat) : result nat :=
  target_coord ← verify_coordinates target_coords;
  match target_coord with
  | None =>
      Raise (ValueError
        "TARGET_COORD is needed for HAWKI images to find the correct extension")
  | Some c =>
      found ← HAWKI_search hdul (icrs_radec c) [1; 2; 3; 4]%nat;
      match found, fallback_extension with
      | Some k, _ => Ok k
      | None, Some ext => Ok ext
      | None, None =>
          Raise (RuntimeError "Could not find image extension that target is on!")
      end
  end.

(** [inst_cls.get_ext(hdul, target_coord)] as [load_image] calls it: no
    fallback extension is passed. *)
Definition get_ext (c : inst_cls) (hdul : list HDU)
    (target_coords : option target) : result nat :=
  match c with
  | HAWKI => HAWKI_get_ext hdul target_coords None
  | _ => Ok 0%nat
  end.

(** [np.asarray(data, dtype='bool')] *)
Definition as_bool_array (g : grid fval) : grid bool :=
  map (map (fun x => negb (feq x fzero))) g.

Definition get_mask (c : inst_cls) (hdul : list HDU) : option (grid bool) :=
  match c with
  | LCOGT =>
      match index_of hdul "BPM" with
      | Some i =>
          match hdul !! i with
          | Some hdu => Some (as_bool_array (hdu_data hdu))
          | None => None
          end
      | None => None
      end
  | _ => None
  end.

Definition set_peakmax (v : option Z) (s : FlowsImage) : FlowsImage :=
  {| image := image s; header := header s; mask := mask s; peakmax := v;
     exptime := exptime s; instrument_defaults := instrument_defaults s;
     site := site s; obstime := obstime s; photfilter := photfilter s;
     wcs := wcs s; clean := clean s; shape_ := shape_ s; ob_type := ob_type s |}.
Definition set_site (v : option Site) (s : FlowsImage) : FlowsImage :=
  {| image := image s; header := header s; mask := mask s; peakmax := peakmax s;
     exptime := exptime s; instrument_defaults := instrument_defaults s;
     site := v; obstime := obstime s; photfilter := photfilter s;
     wcs := wcs s; clean := clean s; shape_ := shape_ s; ob_type := ob_type s |}.
Definition set_exptime (v : option hval) (s : FlowsImage) : FlowsImage :=
  {| image := image s; header := header s; mask := mask s; peakmax := peakmax s;
     exptime := v; instrument_defaults := instrument_defaults s;
     site := site s; obstime := obstime s; photfilter := photfilter s;
     wcs := wcs s; clean := clean s; shape_ := shape_ s; ob_type := ob_type s |}.
Definition set_obstime (v : option Time) (s : FlowsImage) : FlowsImage :=
  {| image := image s; header := header s; mask := mask s; peakmax := peakmax s;
     exptime := exptime s; instrument_defaults := instrument_defaults s;
     site := site s; obstime := v; photfilter := photfilter s;
     wcs := wcs s; clean := clean s; shape_ := shape_ s; ob_type := ob_type s |}.
Definition set_photfilter (v : option hval) (s : FlowsImage) : FlowsImage :=
  {| image := image s; header := header s; mask := mask s; peakmax := peakmax s;
     exptime := exptime s; instrument_defaults := instrument_defaults s;
     site := site s; obstime := obstime s; photfilter := v;
     wcs := wcs s; clean := clean s; shape_ := shape_ s; ob_type := ob_type s |}.
Definition set_instrument_defaults (v : option InstrumentDefaults)
    (s : FlowsImage) : FlowsImage :=
  {| image := image s; header := header s; mask := mask s; peakmax := peakmax s;
     exptime := exptime s; instrument_defaults := v;
     site := site s; obstime := obstime s; photfilter := photfilter s;
     wcs := wcs s; clean := clean s; shape_ := shape_ s; ob_type := ob_type s |}.
Definition set_ob_type (v : option string) (s : FlowsImage) : FlowsImage :=
  {| image := image s; header := header s; mask := mask s; peakmax := peakmax s;
     exptime := exptime s; instrument_defaults := instrument_defaults s;
     site := site s; obstime := obstime s; photfilter := photfilter s;
     wcs := wcs s; clean := clean s; shape_ := shape_ s; ob_type := v |}.

(** [site_keywords.get(key, nonesite)] for the dict built from [sites]:
    a later site replaces an earlier one with the same keyword. *)
Definition site_by_keyword (sites : list Site) (key : hval) : Site :=
  default nonesite
    (last (filter (fun s => hval_eq (HStr (site_keyword s)) key = true) sites)).

Definition get_site (c : inst_cls) (img : FlowsImage) : result (option Site) :=
  match c with
  | LCOGT =>
      sites ← api_get_all_sites;
      key ← getitem (header img) "SITE";
      Ok (Some (site_by_keyword sites key))
  | _ =>
      match cls_siteid (attrs c) with
      | Some siteid => s ← api_get_site siteid; Ok (Some s)
      | None => Ok None
      end
  end.

(** [Time(hdr[key], format=fmt, scale='utc',
          location=self.image.site['EarthLocation'])] *)
Definition time_of_card (img : FlowsImage) (key fmt : string) : result Time :=
  v ← getitem (header img) key;
  l ← site_location (site img);
  Time_new v fmt l.

(** [obstime += 0.5 * self.image.exptime * u.second] *)
Definition add_half_exptime (img : FlowsImage) (t : Time) : result Time :=
  match exptime img with
  | Some (HNum e) => Time_add_seconds t (half * e)%Q
  | _ => Raise (TypeError "unsupported operand type(s) for *")
  end.

Definition get_obstime (c : inst_cls) (img : FlowsImage) : result Time :=
  match c with
  | LCOGT =>
      lat ← getitem (header img) "LATITUDE";
      lon ← getitem (header img) "LONGITUD";
      height ← getitem (header img) "HEIGHT";
      observatory ← from_geodetic lat lon height;
      v ← getitem (header img) "DATE-OBS";
      t ← Time_new v "isot" observatory;
      add_half_exptime img t
  | HAWKI | Liverpool | EFOSC | AFOSC | Schmidt =>
      t ← time_of_card img "DATE-OBS" "isot"; add_half_exptime img t
  | ALFOSC | NOTCAM => time_of_card img "DATE-AVG" "isot"
  | PS1 => time_of_card img "MJD-OBS" "mjd"
  | Omega2000 | Swope_newheader | OmegaCam =>
      t ← time_of_card img "MJD-OBS" "mjd"; add_half_exptime img t
  | Sofi =>
      match header img !! "TMID" with
      | Some _ => time_of_card img "TMID" "mjd"
      | None => t ← time_of_card img "MJD-OBS" "mjd"; add_half_exptime img t
      end
  | AstroNIRCam =>
      match header img !! "MIDPOINT" with
      | Some _ => time_of_card img "MIDPOINT" "isot"
      | None => time_of_card img "MJD-AVG" "mjd"
      end
  | AndiCam | TJO_MEIA2 | TJO_MEIA3 =>
      t ← time_of_card img "JD" "jd"; add_half_exptime img t
  | PairTel =>
      time_start ← time_of_card img "STRT_CPU" "iso";
      time_stop ← time_of_card img "STOP_CPU" "iso";
      Time_midpoint time_start time_stop
  | RATIR => time_of_card img "DATE-OBS" "isot"
  | Swope | Dupont | RetroCam | Baade => time_of_card img "JD" "jd"
  end.

(** [inst_cls(image)]: only [HAWKI.__init__] does more than store the
    image, it runs [get_obtype]. *)
Definition instrument_init (c : inst_cls) (img : FlowsImage) : result FlowsImage :=
  match c with
  | HAWKI =>
      v ← getitem (header img) "HIERARCH ESO OCS DET1 IMGNAME";
      name ← str_method (Some v);
      let ob_type := PyStr.split_last "_" name in
      if PyStr.contains "Auto" ob_type
      then Ok (set_ob_type (Some "Autojitter") img)
      else if PyStr.contains "Fixed" ob_type
      then Ok (set_ob_type (Some "FixedOffset") img)
      else Raise (RuntimeError "Image OB Type not AutoJitter or FixedOffset")
  | _ => Ok img
  end.

(** [_get_clean_image] followed by [set_instrument_defaults]. *)
Definition process_image (c : inst_cls) (img : FlowsImage) (σ : store)
    : result (FlowsImage * store) :=
  let img := set_peakmax (cls_peakmax (attrs c)) img in
  s ← get_site c img;
  let img := set_site s img in
  e ← get_exptime c (header img);
  let img := set_exptime (Some e) img in
  t ← get_obstime c img;
  let img := set_obstime (Some t) img in
  f ← get_photfilter c (header img);
  let img := set_photfilter (Some f) img in
  '(img, σ) ← create_masked_image img σ;
  Ok (set_instrument_defaults (Some InstrumentDefaults_new) img, σ).

Definition correct_barycentric (obstime : option Time) (target_coord : target)
    : result Time :=
  match obstime with
  | Some t => tdb_plus_light_travel_time t target_coord
  | None => Raise (AttributeError "'NoneType' object has no attribute")
  end.

(** The body of the [if] in the loop of [load_image]: what is done with
    the class that identified the file. *)
Definition load_as (c : inst_cls) (hdul : list HDU) (hdr : Header)
    (target_coord : option target) : result (FlowsImage * store) :=
  ext ← get_ext c hdul target_coord;
  let mask := get_mask c hdul in
  hdu ← list_getitem hdul ext;
  let '(data, σ) := alloc_float (hdu_data hdu) empty_store in
  let '(mloc, σ) :=
    match mask with
    | Some m => let '(l, σ) := alloc_bool m σ in (Some l, σ)
    | None => (None, σ)
    end in
  '(image, σ) ← FlowsImage_new data hdr mloc σ;
  image ← instrument_init c image;
  '(clean_image, σ) ← process_image c image σ;
  match target_coord with
  | Some tc =>
      t ← correct_barycentric (obstime clean_image) tc;
      Ok (set_obstime (Some t) clean_image, σ)
  | None => Ok (clean_image, σ)
  end.

Definition no_match : exn := RuntimeError "Could not determine origin of image".

(** [for name, inst_cls in registry.items(): if ...: return ...] and the
    [raise] after the loop. *)
Fixpoint dispatch (registry : list (string * inst_cls))
    (telescope origin instrument : string) (hdul : list HDU) (hdr : Header)
    (target_coord : option target) : result (FlowsImage * store) :=
  match registry with
  | [] => Raise no_match
  | (name, inst_cls) :: rest =>
      if identifier inst_cls telescope origin instrument hdr
      then load_as inst_cls hdul hdr target_coord
      else dispatch rest telescope origin instrument hdul hdr target_coord
  end.

(** The primary header and its [ORIGIN], [TELESCOP] and [INSTRUME]
    cards, absent cards read as the empty string. *)
Definition read_primary (hdul : list HDU)
    : result (Header * string * string * string) :=
  hdu ← list_getitem hdul 0;
  let hdr := hdu_header hdu in
  origin ← get_str hdr "ORIGIN" "";
  telescope ← get_str hdr "TELESCOP" "";
  instrument ← get_str hdr "INSTRUME" "";
  Ok (hdr, origin, telescope, instrument).

(** [load_image] over the opened file, for a given registry. *)
Definition load_image_with (registry : list (string * inst_cls))
    (hdul : list HDU) (target_coord : option target)
    : result (FlowsImage * store) :=
  '(hdr, origin, telescope, instrument) ← read_primary hdul;
  dispatch registry telescope origin instrument hdul hdr target_coord.

Definition load_image : list HDU → option target → result (FlowsImage * store) :=
  load_image_with instruments.

End Loader.

(* ===================================================================== *)
(** ** Vocabulary of the specification *)
(* ===================================================================== *)

(** [sub] occurs in [s] as a contiguous run of characters. *)
Definition is_substring (sub s : string) : Prop :=
  ∃ p q, s = p +:+ sub +:+ q.

(** Two card values are equal for Python: the same text, or the same
    number. *)
Definition py_equal (w v : hval) : Prop :=
  match w, v with
  | HStr a, HStr b => a = b
  | HNum a, HNum b => (a == b)%Q
  | _, _ => False
  end.

(** Every required card of [uh] is in [hdr] with the configured value. *)
Definition has_required_cards (uh : gmap string hval) (hdr : Header) : Prop :=
  ∀ key v, uh !! key = Some v → ∃ w, hdr !! key = Some w ∧ py_equal w v.

(** The label a filter card contributes when it holds text that is neither
    empty nor, stripped and lower-cased, the word "open". *)
Definition plausible_label (v : hval) : option string :=
  match v with
  | HStr s =>
      if negb (String.eqb s "")
         && negb (String.eqb (PyStr.lower (PyStr.strip s)) "open")
      then Some (PyStr.strip s) else None
  | HNum _ => None
  end.

(** The plausible labels among the cards [cards], in card order. *)
Definition found_labels (hdr : Header) (cards : list string) : list string :=
  omap (fun key => hdr !! key ≫= plausible_label) cards.

(** Every card of [cards] is in the header and holds text. *)
Definition text_cards (hdr : Header) (cards : list string) : Prop :=
  ∀ key, key ∈ cards → ∃ s, hdr !! key = Some (HStr s).

(** A projected pixel position lies on an extension of [naxis1] by
    [naxis2] pixels, half a pixel of margin included on each edge. *)
Definition in_footprint (naxis1 naxis2 : Q) (pix : fval * fval) : Prop :=
  ∃ x y : Q, pix = (Fin x, Fin y) ∧
    (- (1 # 2) <= x)%Q ∧ (x <= naxis1 - (1 # 2))%Q ∧
    (- (1 # 2) <= y)%Q ∧ (y <= naxis2 - (1 # 2))%Q.

Section ExtensionVocabulary.
Context `{Astro}.

(** Extension [k] of the file can be probed: it exists, its header
    gives a coordinate mapping and the two axis lengths, and the mapping
    projects the sky position [radec] to [pix]. *)
Definition probed (hdul : list HDU) (radec : fval * fval) (k : nat)
    (naxis1 naxis2 : Q) (pix : fval * fval) : Prop :=
  ∃ hdu w, hdul !! k = Some hdu ∧
    WCS_new (hdu_header hdu) = Ok w ∧
    hdu_header hdu !! "NAXIS2" = Some (HNum naxis2) ∧
    hdu_header hdu !! "NAXIS1" = Some (HNum naxis1) ∧
    all_world2pix w radec = Ok pix.

Definition covers (hdul : list HDU) (radec : fval * fval) (k : nat) : Prop :=
  ∃ naxis1 naxis2 pix,
    probed hdul radec k naxis1 naxis2 pix ∧ in_footprint naxis1 naxis2 pix.

Definition misses (hdul : list HDU) (radec : fval * fval) (k : nat) : Prop :=
  ∃ naxis1 naxis2 pix,
    probed hdul radec k naxis1 naxis2 pix ∧ ¬ in_footprint naxis1 naxis2 pix.

End ExtensionVocabulary.

(** The frame of an [h] by [w] array: the [t] top rows, the [b] bottom
    rows, the [l] left columns and the [r] right columns. *)
Definition border (h w t b l r : nat) (i j : nat) : bool :=
  (i <? t)%nat || (h - b <=? i)%nat || (j <? l)%nat || (w - r <=? j)%nat.

Section ContainerVocabulary.
Context `{Astro}.

(** Every pixel position that holds a non-finite value is marked in the
    mask of the container. *)
Definition nonfinite_masked (self : FlowsImage) (σ : store) : Prop :=
  ∀ r c row x,
    float_at σ (image self) !! r = Some row → row !! c = Some x →
    isfinite x = false →
    at_ false (bool_at σ (mask self)) r c = true.

(** The pixel array and the mask array of the container are both [h] by
    [w]. *)
Definition well_shaped (h w : nat) (self : FlowsImage) (σ : store) : Prop :=
  has_shape h w (float_at σ (image self)) ∧
  has_shape h w (bool_at σ (mask self)).

End ContainerVocabulary.

(** The single card from which a class reads the filter name; none for
    the three classes that may search alternate cards. *)
Definition filter_card (c : inst_cls) : option string :=
  match c with
  | ALFOSC | NOTCAM | Sofi => None
  | PS1 => Some "FPA.FILTER"
  | Liverpool => Some "FILTER1"
  | OmegaCam => Some "ESO INS FILT1 NAME"
  | AndiCam => Some "CCDFLTID"
  | _ => Some "FILTER"
  end.

(** A card that is absent or holds a number: it has no [str] method. *)
Definition not_text (hdr : Header) (key : string) : Prop :=
  ∀ s, hdr !! key ≠ Some (HStr s).

(** No card of [cards] holds a number other than zero. *)
Definition no_numeric_card (hdr : Header) (cards : list string) : Prop :=
  ∀ key q, key ∈ cards → hdr !! key = Some (HNum q) → (q == 0)%Q.

(* ===================================================================== *)
(** ** Sample inputs *)
(* ===================================================================== *)

Module Sample.

(** Stand-ins for the collaborators, simple enough to run: a site is its
    identifier, a time is a number, a coordinate mapping is the header
    it was built from and projects a sky position by subtracting the
    reference values [CRVAL1] and [CRVAL2]. *)
Definition card_number (hdr : Header) (key : string) : Q :=
  match hdr !! key with Some (HNum q) => q | _ => 0%Q end.

Definition shift (x : fval) (by_ : Q) : fval :=
  match x with Fin q => Fin (q - by_)%Q | _ => x end.

Definition astro : Astro := {|
  Site := Z;
  Location := unit;
  Time := Q;
  WCS := Header;
  SkyCoord := fval * fval;
  api_get_site := fun siteid => Ok siteid;
  api_get_all_sites := Ok [];
  site_keyword := fun _ => "";
  nonesite := 0%Z;
  site_location := fun _ => Ok tt;
  from_geodetic := fun _ _ _ => Ok tt;
  Time_new := fun v _ _ => match v with HNum q => Ok q | HStr _ => Ok 0%Q end;
  Time_add_seconds := fun t s => Ok (t + s)%Q;
  Time_midpoint := fun a b => Ok ((a + b) * half)%Q;
  WCS_new := fun hdr => Ok hdr;
  all_world2pix := fun w radec =>
    Ok (shift (fst radec) (card_number w "CRVAL1"),
        shift (snd radec) (card_number w "CRVAL2"));
  SkyCoord_deg := fun ra dec => Ok (ra, dec);
  icrs_radec := fun c => c;
  tdb_plus_light_travel_time := fun t _ => Ok t;
  index_of := fun hdul name =>
    fst <$> list_find (fun hdu => hdu_name hdu = name) hdul;
  FILTERS_keys := ["B"; "V"; "R"; "gp"; "rp"; "ip"; "zp"; "up"];
|}.

(** A header with both exposure-time cards. *)
Definition hdr_two_exptimes : Header :=
  <[ "EXPTIME" := HNum 10 ]> {[ "FULL_EXP" := HNum 100 ]}.

(** An ALFOSC header without FILTER whose only filter in the beam is
    labelled "g SDSS". *)
Definition hdr_alfosc_g : Header :=
  <[ "ALFLTNM" := HStr "g SDSS" ]>
    (<[ "FAFLTNM" := HStr "Open" ]> {[ "FBFLTNM" := HStr "Open" ]}).

(** A header with the alternate filter cards of both NOT instruments,
    one filter in the beam each. *)
Definition hdr_not_alternate : Header :=
  <[ "ALFLTNM" := HStr "g'_SDSS 480_145" ]>
    (<[ "FAFLTNM" := HStr "Open" ]>
       (<[ "FBFLTNM" := HStr " open " ]>
          (<[ "NCFLTNM1" := HStr "Ks" ]> {[ "NCFLTNM2" := HStr "Open" ]}))).

Definition two_by_two : grid fval := [[Fin 1; Fin 2]; [Fin 3; Fin 4]].

(** A single-unit file taken with the 1.82 m reflector and AFOSC whose
    header also carries the latitude that identifies the Schmidt. *)
Definition hdr_asiago : Header :=
  list_to_map
    [ ("TELESCOP", HStr "1.82m Reflector"); ("INSTRUME", HStr "AFOSC");
      ("SITELAT", HNum 45.8494444); ("EXPTIME", HNum 60);
      ("DATE-OBS", HNum 2459000); ("FILTER", HStr "r-Sloan") ].

Definition file_asiago : list HDU :=
  [ {| hdu_name := "PRIMARY"; hdu_header := hdr_asiago; hdu_data := two_by_two |} ].

(** A file whose primary header has no card at all. *)
Definition file_anonymous : list HDU :=
  [ {| hdu_name := "PRIMARY"; hdu_header := ∅; hdu_data := two_by_two |} ].

(** The registry without its last entry. *)
Definition instruments_but_last : list (string * inst_cls) := take 22 instruments.

(** A file of four 10 by 10 extensions side by side along the first sky
    axis: extension [k] starts at [10 * (k - 1)]. *)
Definition mosaic_ext (k : Z) : HDU :=
  {| hdu_name := "CHIP";
     hdu_header :=
       list_to_map
         [ ("NAXIS1", HNum 10); ("NAXIS2", HNum 10);
           ("CRVAL1", HNum (inject_Z (10 * (k - 1)))); ("CRVAL2", HNum 0) ];
     hdu_data := two_by_two |}.

Definition file_mosaic : list HDU :=
  [ {| hdu_name := "PRIMARY"; hdu_header := ∅; hdu_data := [] |};
    mosaic_ext 1; mosaic_ext 2; mosaic_ext 3; mosaic_ext 4 ].

(** A target on the third extension only. *)
Definition target_on_third : fval * fval := (Fin 25, Fin 5).

(** A 4 by 5 image of value 7 framed by one row or column of zeros. *)
Definition framed : grid fval :=
  [ [Fin 0; Fin 0; Fin 0; Fin 0; Fin 0];
    [Fin 0; Fin 7; Fin 7; Fin 7; Fin 0];
    [Fin 0; Fin 7; NaN; Fin 7; Fin 0];
    [Fin 0; Fin 0; Fin 0; Fin 0; Fin 0] ].

(** A 2 by 2 image with one pixel that is not a number, built into a
    container without a mask, and the same container after
    [apply_edge_mask(apply_existing_mask_first=flag)] with no row or
    column given. *)
Definition nan_image : grid fval := [[Fin 1; NaN]; [Fin 1; Fin 1]].

Definition container : result (@FlowsImage astro * store) :=
  let '(l, σ) := alloc_float nan_image empty_store in
  @FlowsImage_new astro l ∅ None σ.

Definition edge_masked (flag : bool) : result (@FlowsImage astro * store) :=
  '(self, σ) ← container;
  @apply_edge_mask astro None None flag self σ.

End Sample.

(* ===================================================================== *)
(** * Properties *)
(* ===================================================================== *)

(** ** Strings *)

Lemma startswith_spec p s :
  PyStr.startswith p s = true ↔ ∃ q, s = p +:+ q.
Proof.
  revert s. induction p as [|a p IH]; intros s; simpl.
  - split; [intros _; by exists s | done].
  - destruct s as [|b s].
    + split; [done | intros [q Hq]; discriminate].
    + rewrite andb_true_iff, IH. split.
      * intros [Hab [q ->]]. apply Ascii.eqb_eq in Hab as ->. by exists q.
      * intros [q Hq]. injection Hq as -> ->. split; [apply Ascii.eqb_refl | by exists q].
Qed.

Lemma contains_spec sub s :
  PyStr.contains sub s = true ↔ is_substring sub s.
Proof.
  unfold is_substring. induction s as [|b s IH].
  - simpl. rewrite orb_false_r, startswith_spec. split.
    + intros [q Hq]. by exists "", q.
    + intros [p [q Hq]]. destruct p; simpl in Hq; [by exists q | discriminate].
  - cbn [PyStr.contains]. rewrite orb_true_iff, startswith_spec, IH. split.
    + intros [[q Hq] | [p [q Hq]]].
      * by exists "", q.
      * exists (String b p), q. simpl. by rewrite Hq.
    + intros [p [q Hq]]. destruct p as [|a p]; simpl in Hq.
      * left. by exists q.
      * right. injection Hq as _ Hq. by exists p, q.
Qed.

Lemma hval_eq_spec w v : hval_eq w v = true ↔ py_equal w v.
Proof.
  destruct w, v; simpl; try (split; [discriminate | done]).
  - apply String.eqb_eq.
  - apply Qeq_bool_iff.
Qed.

Lemma forallb_id_true (l : list bool) :
  forallb id l = true ↔ ∀ b, b ∈ l → b = true.
Proof.
  rewrite forallb_forall. unfold id.
  split; intros Hl b Hb; apply Hl; by apply list_elem_of_In.
Qed.

(** ** Identification *)

Lemma unique_conds_spec (uh : gmap string hval) (hdr : Header) :
  forallb id (map (fun key => opt_eq (hdr !! key) (uh !! key)) (elements (dom uh)))
    = true ↔ has_required_cards uh hdr.
Proof.
  rewrite forallb_id_true. unfold has_required_cards. split.
  - intros Hall key v Hkv.
    assert (Hin : opt_eq (hdr !! key) (uh !! key) = true).
    { apply Hall. apply list_elem_of_fmap. exists key. split; [done |].
      apply elem_of_elements, elem_of_dom. by exists v. }
    rewrite Hkv in Hin. destruct (hdr !! key) as [w|]; [| done].
    exists w. split; [done | by apply hval_eq_spec].
  - intros Hreq b Hb. apply list_elem_of_fmap in Hb as [key [-> Hkey]].
    apply elem_of_elements, elem_of_dom in Hkey as [v Hkv].
    destruct (Hreq key v Hkv) as [w [Hw Hwv]].
    rewrite Hw, Hkv. by apply hval_eq_spec.
Qed.

Lemma configured_substring cfg s :
  (if negb (String.eqb cfg "") then PyStr.contains cfg s else true) = true
  ↔ cfg = "" ∨ is_substring cfg s.
Proof.
  destruct (String.eqb_spec cfg "") as [-> | Hne]; simpl.
  - split; [by left | done].
  - rewrite contains_spec. split; [by right | by intros [? | ?]].
Qed.

Lemma configured_equal cfg s :
  (if negb (String.eqb cfg "") then String.eqb cfg s else true) = true
  ↔ cfg = "" ∨ cfg = s.
Proof.
  destruct (String.eqb_spec cfg "") as [-> | Hne]; simpl.
  - split; [by left | done].
  - rewrite String.eqb_eq. split; [by right | by intros [? | ?]].
Qed.

(** C6. The inherited identifier holds exactly when all four conditions
    hold: the telescope name contains the configured telescope text or none
    is configured, the origin is the configured origin or none is
    configured, the instrument name contains the configured instrument text
    or none is configured, and every required card is in the header with
    its configured value or no set of required cards is declared. *)
Theorem Instrument_identifier_iff (cls : ClassAttrs)
    (telescope origin instrument : string) (hdr : Header) :
  Instrument_identifier cls telescope origin instrument hdr = true ↔
    (cls_telescope cls = "" ∨ is_substring (cls_telescope cls) telescope) ∧
    (cls_origin cls = "" ∨ cls_origin cls = origin) ∧
    (cls_instrument cls = "" ∨ is_substring (cls_instrument cls) instrument) ∧
    (cls_unique_headers cls = None ∨
     ∃ uh, cls_unique_headers cls = Some uh ∧ has_required_cards uh hdr).
Proof.
  unfold Instrument_identifier. cbn [forallb id].
  rewrite andb_true_r, !andb_true_iff.
  rewrite !configured_substring, configured_equal.
  destruct (cls_unique_headers cls) as [uh|].
  - rewrite unique_conds_spec. split.
    + intros (? & ? & ? & ?). repeat split; try done. right. by exists uh.
    + intros (? & ? & ? & [? | [uh' [[= <-] ?]]]); done.
  - simpl. split.
    + intros (? & ? & ? & _). repeat split; try done. by left.
    + intros (? & ? & ? & _). done.
Qed.

Lemma has_required_cards_singleton key v (hdr : Header) :
  has_required_cards {[ key := v ]} hdr ↔ ∃ w, hdr !! key = Some w ∧ py_equal w v.
Proof.
  unfold has_required_cards. split.
  - intros Hreq. apply Hreq. apply lookup_singleton_eq.
  - intros Hw key' v' Hkv. apply lookup_singleton_Some in Hkv as [<- <-]. done.
Qed.

(** C3. The class bodies of AFOSC and Schmidt only annotate [telescope] and
    [instrument], so both attributes are the inherited empty string.
    AFOSC then identifies every file, and Schmidt identifies a file exactly
    when its header has a SITELAT card equal to 45.8494444. *)
Theorem AFOSC_Schmidt_identifier (telescope origin instrument : string)
    (hdr : Header) :
  (cls_telescope (attrs AFOSC) = "" ∧ cls_instrument (attrs AFOSC) = "" ∧
   cls_telescope (attrs Schmidt) = "" ∧ cls_instrument (attrs Schmidt) = "") ∧
  identifier AFOSC telescope origin instrument hdr = true ∧
  (identifier Schmidt telescope origin instrument hdr = true ↔
     ∃ w, hdr !! "SITELAT" = Some w ∧ py_equal w (HNum 45.8494444%Q)).
Proof.
  split; [done |]. split; [done |].
  cbn [identifier]. unfold Instrument_identifier.
  cbn [attrs Instrument_attrs cls_telescope cls_origin cls_instrument
       cls_unique_headers String.eqb negb forallb id].
  rewrite andb_true_r, !andb_true_l, unique_conds_spec.
  apply has_required_cards_singleton.
Qed.

(** ** Exposure time *)

(** C10, as stated, fails: with both cards in the header the standard card
    EXPTIME holds 10 and AstroNIRCam returns the 100 of FULL_EXP. *)
Lemma AstroNIRCam_get_exptime_ignores_standard_card :
  Sample.hdr_two_exptimes !! "EXPTIME" = Some (HNum 10) ∧
  get_exptime AstroNIRCam Sample.hdr_two_exptimes = Ok (HNum 100) ∧
  get_exptime AstroNIRCam Sample.hdr_two_exptimes ≠ Ok (HNum 10).
Proof. vm_compute. repeat split; congruence. Qed.

(** C10, amended. AstroNIRCam returns the FULL_EXP card whenever the header
    has one, whatever EXPTIME holds; the standard card EXPTIME is read only
    when FULL_EXP is missing, and the call raises when both are. *)
Theorem AstroNIRCam_get_exptime_prefers_full_exp (hdr : Header) :
  (∀ v, hdr !! "FULL_EXP" = Some v → get_exptime AstroNIRCam hdr = Ok v) ∧
  (hdr !! "FULL_EXP" = None →
   ∀ v, hdr !! "EXPTIME" = Some v → get_exptime AstroNIRCam hdr = Ok v) ∧
  (hdr !! "FULL_EXP" = None → hdr !! "EXPTIME" = None →
   get_exptime AstroNIRCam hdr
     = Raise (ValueError "Image exposure time could not be extracted")).
Proof.
  unfold get_exptime, Instrument_get_exptime. repeat split.
  - by intros v ->.
  - by intros -> v ->.
  - by intros -> ->.
Qed.

Lemma AstroNIRCam_get_exptime_prefers_full_exp_witness :
  get_exptime AstroNIRCam Sample.hdr_two_exptimes = Ok (HNum 100) ∧
  get_exptime AstroNIRCam {[ "EXPTIME" := HNum 10 ]} = Ok (HNum 10).
Proof.
  split.
  - apply (proj1 (AstroNIRCam_get_exptime_prefers_full_exp Sample.hdr_two_exptimes)).
    reflexivity.
  - apply (proj1 (proj2 (AstroNIRCam_get_exptime_prefers_full_exp
                           {[ "EXPTIME" := HNum 10 ]})));
      reflexivity.
Defined.

(** ** Filter determination from alternate cards *)

Lemma scan_filter_card_text hdr acc key s :
  hdr !! key = Some (HStr s) →
  scan_filter_card hdr acc key
    = Ok (acc ++ from_option (fun l => [l]) [] (plausible_label (HStr s)))%list.
Proof.
  intros Hs. unfold scan_filter_card. rewrite Hs. simpl.
  destruct (negb (s =? "") && negb (PyStr.lower (PyStr.strip s) =? "open")); simpl.
  - done.
  - by rewrite app_nil_r.
Qed.

Lemma scan_filter_cards_text hdr cards acc :
  text_cards hdr cards →
  foldlM (scan_filter_card hdr) cards acc = Ok (acc ++ found_labels hdr cards)%list.
Proof.
  revert acc. induction cards as [|key cards IH]; intros acc Htext.
  - simpl. by rewrite app_nil_r.
  - destruct (Htext key) as [s Hs]; [left |].
    cbn [foldlM]. rewrite (scan_filter_card_text _ _ _ _ Hs). cbn [mbind result_bind].
    rewrite IH by (intros k Hk; apply Htext; by right).
    change (found_labels hdr (key :: cards))
      with (match hdr !! key ≫= plausible_label with
            | Some l => l :: found_labels hdr cards
            | None => found_labels hdr cards
            end).
    rewrite Hs. cbn [mbind option_bind].
    destruct (plausible_label (HStr s)); simpl; by rewrite <- ?app_assoc.
Qed.

(** C7, as stated, fails on its example: in an ALFOSC header without FILTER
    whose alternate cards hold exactly one plausible label, "g SDSS", the
    filter returned is "g SDSS" itself and not "gp". *)
Lemma ALFOSC_alternate_card_g_SDSS_untranslated :
  Sample.hdr_alfosc_g !! "FILTER" = None ∧
  found_labels Sample.hdr_alfosc_g ALFOSC_alt_cards = ["g SDSS"] ∧
  ALFOSC_get_photfilter Sample.hdr_alfosc_g = Ok (HStr "g SDSS") ∧
  ALFOSC_get_photfilter Sample.hdr_alfosc_g ≠ Ok (HStr "gp").
Proof. vm_compute. repeat split; congruence. Qed.

(** C7, amended. For ALFOSC and NOTCAM, when the header has no FILTER card
    and every alternate filter card holds text: zero or several plausible
    labels raise the undetermined-filter error; exactly one is returned
    after translation through the table for alternate cards (where
    "g'_SDSS 480_145" maps to "gp" for ALFOSC and "Ks" to "K" for NOTCAM),
    the label itself being returned when the table has no entry for it, as
    for "g SDSS". *)
Theorem alternate_filter_cards_determination (hdr : Header) :
  hdr !! "FILTER" = None →
  (text_cards hdr ALFOSC_alt_cards →
   ALFOSC_get_photfilter hdr =
     match found_labels hdr ALFOSC_alt_cards with
     | [label] =>
         Ok (HStr (default label
                     (ALFOSC_alt_table !! PyStr.replace "  " " " label)))
     | _ => Raise undetermined_filter
     end) ∧
  (text_cards hdr NOTCAM_alt_cards →
   NOTCAM_get_photfilter hdr =
     match found_labels hdr NOTCAM_alt_cards with
     | [label] => Ok (HStr (default label (NOTCAM_table !! label)))
     | _ => Raise undetermined_filter
     end) ∧
  ALFOSC_alt_table !! "g'_SDSS 480_145" = Some "gp" ∧
  NOTCAM_table !! "Ks" = Some "K" ∧
  ALFOSC_alt_table !! "g SDSS" = None ∧
  NOTCAM_table !! "g SDSS" = None.
Proof.
  intros Hfilter. split; [| split; [| by vm_compute]].
  - intros Htext. unfold ALFOSC_get_photfilter. rewrite Hfilter.
    rewrite (scan_filter_cards_text _ _ _ Htext). cbn [mbind result_bind app].
    destruct (found_labels hdr ALFOSC_alt_cards) as [|label [|? ?]]; try done.
    unfold dict_get. by destruct (ALFOSC_alt_table !! _).
  - intros Htext. unfold NOTCAM_get_photfilter. rewrite Hfilter.
    rewrite (scan_filter_cards_text _ _ _ Htext). cbn [mbind result_bind app].
    destruct (found_labels hdr NOTCAM_alt_cards) as [|label [|? ?]]; try done.
    unfold dict_get. by destruct (NOTCAM_table !! _).
Qed.

Lemma alternate_filter_cards_determination_witness :
  Sample.hdr_not_alternate !! "FILTER" = None ∧
  ALFOSC_get_photfilter Sample.hdr_not_alternate = Ok (HStr "gp") ∧
  NOTCAM_get_photfilter Sample.hdr_not_alternate = Ok (HStr "K").
Proof.
  destruct (alternate_filter_cards_determination Sample.hdr_not_alternate eq_refl)
    as (HA & HN & _).
  split; [reflexivity |]. split.
  - rewrite HA; [reflexivity |].
    intros key Hkey. repeat (apply elem_of_cons in Hkey as [-> | Hkey]; [eauto |]).
    by apply elem_of_nil in Hkey.
  - rewrite HN; [reflexivity |].
    intros key Hkey. repeat (apply elem_of_cons in Hkey as [-> | Hkey]; [eauto |]).
    by apply elem_of_nil in Hkey.
Defined.

(** The guard on the card comes too late in ALFOSC and NOTCAM: a header
    that lacks one of the alternate cards raises before any label is
    counted, where the search of Sofi skips the missing card. *)
Example ALFOSC_missing_alternate_card :
  ALFOSC_get_photfilter {[ "ALFLTNM" := HStr "B_Bes 440_100" ]}
    = Raise (AttributeError "object has no such str method") ∧
  Sofi_get_photfilter {[ "ESO INS FILT1 ID" := HStr "Ks" ]} = Ok (HStr "K").
Proof. by vm_compute. Qed.

(** ** Dispatch *)

Section Dispatch.
Context `{Astro}.


Lemma dispatch_no_match registry telescope origin instrument hdul hdr target_coord :
  (∀ n c, (n, c) ∈ registry → identifier c telescope origin instrument hdr = false) →
  dispatch registry telescope origin instrument hdul hdr target_coord
    = Raise no_match.
Proof.
  induction registry as [|[n c] registry IH]; intros Hnone; simpl.
  - done.
  - rewrite (Hnone n c) by left. apply IH.
    intros n' c' Hin. apply (Hnone n' c'). by right.
Qed.

(** A registry with a matching entry never reaches the error after the
    loop: some matching entry is loaded. *)
Lemma dispatch_some_match registry n c telescope origin instrument hdul hdr
    target_coord :
  (n, c) ∈ registry →
  identifier c telescope origin instrument hdr = true →
  ∃ n' c', (n', c') ∈ registry ∧
    identifier c' telescope origin instrument hdr = true ∧
    dispatch registry telescope origin instrument hdul hdr target_coord
      = load_as c' hdul hdr target_coord.
Proof.
  induction registry as [|[n0 c0] registry IH]; intros Hin Hc.
  - by apply elem_of_nil in Hin.
  - simpl. destruct (identifier c0 telescope origin instrument hdr) eqn:H0.
    + exists n0, c0. split; [left | done].
    + apply elem_of_cons in Hin as [[= -> ->] | Hin]; [congruence |].
      destruct (IH Hin Hc) as (n' & c' & Hin' & Hc' & Heq).
      exists n', c'. split; [by right | done].
Qed.


(** C4. When the fields of the primary header satisfy the identifier of
    no registered variant, the loader raises the no-match error; nothing
    is returned. *)
Theorem load_image_no_match registry hdul target_coord
    hdr origin telescope instrument :
  read_primary hdul = Ok (hdr, origin, telescope, instrument) →
  (∀ n c, (n, c) ∈ registry → identifier c telescope origin instrument hdr = false) →
  load_image_with registry hdul target_coord = Raise no_match.
Proof.
  intros Hprimary Hnone. unfold load_image_with.
  rewrite Hprimary. cbn [mbind result_bind].
  by apply dispatch_no_match.
Qed.

(** With the registry as shipped the loop always finds a class, AFOSC at
    the latest, so the error after the loop is never the outcome. *)
Remark load_image_always_dispatches hdul target_coord
    hdr origin telescope instrument :
  read_primary hdul = Ok (hdr, origin, telescope, instrument) →
  ∃ n c, (n, c) ∈ instruments ∧
    identifier c telescope origin instrument hdr = true ∧
    load_image hdul target_coord = load_as c hdul hdr target_coord.
Proof.
  intros Hprimary. unfold load_image, load_image_with.
  rewrite Hprimary. cbn [mbind result_bind].
  apply (dispatch_some_match instruments "AFOSC" AFOSC); [| done].
  unfold instruments. do 22 right. left.
Qed.

End Dispatch.


Lemma load_image_no_match_witness :
  @load_image_with Sample.astro Sample.instruments_but_last
     Sample.file_anonymous None = Raise no_match.
Proof.
  apply (@load_image_no_match Sample.astro Sample.instruments_but_last
           Sample.file_anonymous None ∅ "" "" "").
  - reflexivity.
  - intros n c Hin. unfold Sample.instruments_but_last, instruments in Hin.
    cbn [take] in Hin.
    repeat (apply elem_of_cons in Hin as [[= -> ->] | Hin];
            [vm_compute; reflexivity |]).
    by apply elem_of_nil in Hin.
Defined.

(** ** Extension search *)

Lemma within_spec p n :
  ∃ b, within p (HNum n) = Ok b ∧
    (b = true ↔ ∃ x, p = Fin x ∧ (- (1 # 2) <= x)%Q ∧ (x <= n - (1 # 2))%Q).
Proof.
  unfold within. destruct p as [x| | |]; simpl.
  - destruct (Qle_bool (- half) x) eqn:Hlo; simpl.
    + eexists. split; [done |]. rewrite Qle_bool_iff. split.
      * intros Hhi. exists x. apply Qle_bool_iff in Hlo. done.
      * by intros (x' & [= <-] & _ & Hhi).
    + exists false. split; [done |]. split; [done |].
      intros (x' & [= <-] & Hlo' & _). apply Qle_bool_iff in Hlo'.
      unfold half in Hlo. congruence.
  - exists false. split; [done |]. split; [done | by intros (? & ? & _)].
  - exists false. split; [done |]. split; [done | by intros (? & ? & _)].
  - exists false. split; [done |]. split; [done | by intros (? & ? & _)].
Qed.

Lemma target_on_spec pix naxis1 naxis2 :
  ∃ b, target_on pix (HNum naxis2) (HNum naxis1) = Ok b ∧
    (b = true ↔ in_footprint naxis1 naxis2 pix).
Proof.
  unfold target_on, in_footprint. destruct pix as [px py]. cbn [fst snd].
  destruct (within_spec px naxis1) as (bx & -> & Hx).
  cbn [mbind result_bind]. destruct bx.
  - destruct (within_spec py naxis2) as (by_ & -> & Hy).
    exists by_. split; [done |]. rewrite Hy. split.
    + intros (y & -> & ? & ?). destruct (proj1 Hx eq_refl) as (x & -> & ? & ?).
      by exists x, y.
    + intros (x & y & [= -> ->] & _ & _ & ? & ?). by exists y.
  - exists false. split; [done |]. split; [done |].
    intros (x & y & [= -> ->] & ? & ? & _).
    assert (false = true) by (apply Hx; by exists x). done.
Qed.

Section ExtensionSearch.
Context `{Astro}.

Lemma HAWKI_search_covers hdul radec k ks :
  covers hdul radec k → HAWKI_search hdul radec (k :: ks) = Ok (Some k).
Proof.
  intros (n1 & n2 & pix & (hdu & w & Hk & Hw & Hn2 & Hn1 & Hpix) & Hin).
  cbn [HAWKI_search]. unfold list_getitem, getitem.
  rewrite Hk. cbn [mbind result_bind]. rewrite Hw, Hn2, Hn1.
  cbn [mbind result_bind]. rewrite Hpix. cbn [mbind result_bind].
  destruct (target_on_spec pix n1 n2) as (b & -> & Hb).
  apply Hb in Hin as ->. done.
Qed.

Lemma HAWKI_search_misses hdul radec k ks :
  misses hdul radec k →
  HAWKI_search hdul radec (k :: ks) = HAWKI_search hdul radec ks.
Proof.
  intros (n1 & n2 & pix & (hdu & w & Hk & Hw & Hn2 & Hn1 & Hpix) & Hout).
  cbn [HAWKI_search]. unfold list_getitem, getitem.
  rewrite Hk. cbn [mbind result_bind]. rewrite Hw, Hn2, Hn1.
  cbn [mbind result_bind]. rewrite Hpix. cbn [mbind result_bind].
  destruct (target_on_spec pix n1 n2) as (b & -> & Hb).
  destruct b; [| done]. destruct Hout. by apply Hb.
Qed.

Lemma HAWKI_search_first hdul radec k :
  (1 ≤ k ≤ 4)%nat →
  covers hdul radec k →
  (∀ j, (1 ≤ j < k)%nat → misses hdul radec j) →
  HAWKI_search hdul radec [1; 2; 3; 4]%nat = Ok (Some k).
Proof.
  intros Hk Hcov Hmiss.
  assert (k = 1 ∨ k = 2 ∨ k = 3 ∨ k = 4)%nat as [-> | [-> | [-> | ->]]] by lia.
  - by apply HAWKI_search_covers.
  - rewrite HAWKI_search_misses by (apply Hmiss; lia).
    by apply HAWKI_search_covers.
  - rewrite !HAWKI_search_misses by (apply Hmiss; lia).
    by apply HAWKI_search_covers.
  - rewrite !HAWKI_search_misses by (apply Hmiss; lia).
    by apply HAWKI_search_covers.
Qed.

Lemma HAWKI_search_none hdul radec :
  (∀ j, (1 ≤ j ≤ 4)%nat → misses hdul radec j) →
  HAWKI_search hdul radec [1; 2; 3; 4]%nat = Ok None.
Proof.
  intros Hmiss. by rewrite !HAWKI_search_misses by (apply Hmiss; lia).
Qed.

(** C5. HAWKI.get_ext raises when no target coordinate is supplied.
    With a target it probes extensions 1 to 4 in turn, projecting the
    target through the coordinate mapping of each, and returns the
    extension on which the projected position falls within
    [-0.5, NAXIS - 0.5] on both axes.  When the target falls on none of
    the four it returns the fallback extension if one was configured and
    raises otherwise. *)
Theorem HAWKI_get_ext_spec (hdul : list HDU) (fallback_extension : option nat) :
  HAWKI_get_ext hdul None fallback_extension
    = Raise (ValueError
        "TARGET_COORD is needed for HAWKI images to find the correct extension")
  ∧
  (∀ target_coords c k,
     verify_coordinates target_coords = Ok (Some c) →
     (1 ≤ k ≤ 4)%nat →
     covers hdul (icrs_radec c) k →
     (∀ j, (1 ≤ j < k)%nat → misses hdul (icrs_radec c) j) →
     HAWKI_get_ext hdul target_coords fallback_extension = Ok k)
  ∧
  (∀ target_coords c,
     verify_coordinates target_coords = Ok (Some c) →
     (∀ j, (1 ≤ j ≤ 4)%nat → misses hdul (icrs_radec c) j) →
     HAWKI_get_ext hdul target_coords fallback_extension =
       match fallback_extension with
       | Some ext => Ok ext
       | None =>
           Raise (RuntimeError "Could not find image extension that target is on!")
       end).
Proof.
  split; [done |]. split.
  - intros target_coords c k Hverify Hk Hcov Hmiss. unfold HAWKI_get_ext.
    rewrite Hverify. cbn [mbind result_bind].
    by rewrite (HAWKI_search_first _ _ k).
  - intros target_coords c Hverify Hmiss. unfold HAWKI_get_ext.
    rewrite Hverify. cbn [mbind result_bind].
    by rewrite HAWKI_search_none.
Qed.

End ExtensionSearch.

Lemma mosaic_probed (k : nat) (z : Z) :
  Sample.file_mosaic !! k = Some (Sample.mosaic_ext z) →
  @probed Sample.astro Sample.file_mosaic Sample.target_on_third k 10 10
    (Fin (25 - inject_Z (10 * (z - 1))), Fin (5 - 0)).
Proof.
  intros Hk. exists (Sample.mosaic_ext z), (hdu_header (Sample.mosaic_ext z)).
  repeat split; done.
Defined.

Lemma HAWKI_get_ext_spec_witness :
  @HAWKI_get_ext Sample.astro Sample.file_mosaic
     (Some (inr [Fin 25; Fin 5])) None = Ok 3%nat.
Proof.
  apply (proj1 (proj2 (@HAWKI_get_ext_spec Sample.astro Sample.file_mosaic None))
           (Some (inr [Fin 25; Fin 5])) Sample.target_on_third 3%nat).
  - reflexivity.
  - lia.
  - eexists _, _, _. split; [apply (mosaic_probed 3 3); reflexivity |].
    eexists _, _. split; [reflexivity |]. by vm_compute.
  - intros j Hj.
    assert (j = 1 ∨ j = 2)%nat as [-> | ->] by lia.
    + eexists _, _, _. split; [apply (mosaic_probed 1 1); reflexivity |].
      intros (x & y & [= <- <-] & _ & Hhi & _). by vm_compute in Hhi.
    + eexists _, _, _. split; [apply (mosaic_probed 2 2); reflexivity |].
      intros (x & y & [= <- <-] & _ & Hhi & _). by vm_compute in Hhi.
Defined.

(** ** Arrays *)

Section GridShape.
Context {A : Type}.
Implicit Types (g : grid A) (r c h w : nat).

Lemma at_lookup (d : A) g r c row x :
  g !! r = Some row → row !! c = Some x → at_ d g r c = x.
Proof.
  intros Hr Hc. unfold at_.
  rewrite (nth_lookup_Some _ _ _ _ Hr). by apply nth_lookup_Some.
Qed.

Lemma has_shape_lookup h w g r :
  has_shape h w g → r < h → ∃ row, g !! r = Some row ∧ length row = w.
Proof.
  intros [Hlen Hrows] Hr.
  destruct (lookup_lt_is_Some_2 g r) as [row Hrow]; [lia |].
  exists row. split; [done |]. by apply (Forall_lookup_1 _ _ _ _ Hrows Hrow).
Qed.

Lemma has_shape_cell h w g r c :
  has_shape h w g → r < h → c < w →
  ∃ row x, g !! r = Some row ∧ row !! c = Some x.
Proof.
  intros Hs Hr Hc. destruct (has_shape_lookup _ _ _ _ Hs Hr) as (row & Hrow & Hlen).
  destruct (lookup_lt_is_Some_2 row c) as [x Hx]; [lia |]. by exists row, x.
Qed.

Lemma has_shape_lengths h w g :
  has_shape h w g ↔ map length g = replicate h w.
Proof.
  unfold has_shape. revert h. induction g as [|row g IH]; intros h; simpl.
  - split.
    + intros [<- _]. done.
    + destruct h; [done | discriminate].
  - split.
    + intros [<- Hall]. apply Forall_cons in Hall as [Hrow Hall]. simpl.
      rewrite Hrow. f_equal. apply IH. done.
    + destruct h as [|h]; [discriminate |]. simpl. intros [= Hrow Hg].
      apply IH in Hg as [Hlen Hall]. split; [by rewrite Hlen |].
      by apply Forall_cons.
Qed.

Lemma has_shape_ncols h w g : has_shape h w g → 0 < h → ncols g = w.
Proof.
  intros [Hlen Hall] Hh. destruct g as [|row g]; simpl in *; [lia |].
  by apply Forall_cons in Hall as [Hrow _].
Qed.

Lemma has_shape_tabulate h w (f : nat → nat → A) : has_shape h w (tabulate h w f).
Proof.
  unfold tabulate. split.
  - by rewrite length_map, length_seq.
  - apply Forall_forall. intros row Hrow.
    apply list_elem_of_fmap in Hrow as (r & -> & _).
    by rewrite length_map, length_seq.
Qed.

Lemma at_tabulate (d : A) h w (f : nat → nat → A) r c :
  r < h → c < w → at_ d (tabulate h w f) r c = f r c.
Proof.
  intros Hr Hc. apply (at_lookup _ _ _ _ (map (fun c => f r c) (seq 0 w))).
  - unfold tabulate.
    change (map ?k (seq 0 h)) with (k <$> seq 0 h).
    by rewrite list_lookup_fmap, lookup_seq_lt.
  - change (map ?k (seq 0 w)) with (k <$> seq 0 w).
    by rewrite list_lookup_fmap, lookup_seq_lt.
Qed.

(** Two arrays of the same shape with the same entries are the same. *)
Lemma grid_ext (d : A) h w (g1 g2 : grid A) :
  has_shape h w g1 → has_shape h w g2 →
  (∀ r c, r < h → c < w → at_ d g1 r c = at_ d g2 r c) →
  g1 = g2.
Proof.
  intros Hs1 Hs2 Hat. apply list_eq. intros r.
  destruct (decide (r < h)) as [Hr | Hr].
  - destruct (has_shape_lookup _ _ _ _ Hs1 Hr) as (row1 & Hrow1 & Hlen1).
    destruct (has_shape_lookup _ _ _ _ Hs2 Hr) as (row2 & Hrow2 & Hlen2).
    rewrite Hrow1, Hrow2. f_equal. apply list_eq. intros c.
    destruct (decide (c < w)) as [Hc | Hc].
    + destruct (lookup_lt_is_Some_2 row1 c) as [x1 Hx1]; [lia |].
      destruct (lookup_lt_is_Some_2 row2 c) as [x2 Hx2]; [lia |].
      rewrite Hx1, Hx2. f_equal.
      rewrite <- (at_lookup d g1 r c row1 x1), <- (at_lookup d g2 r c row2 x2) by done.
      by apply Hat.
    + rewrite !lookup_ge_None_2; [done | lia | lia].
  - destruct Hs1 as [Hl1 _], Hs2 as [Hl2 _].
    rewrite !lookup_ge_None_2; [done | lia | lia].
Qed.

Lemma column_length (d : A) g c : length (column d g c) = length g.
Proof. unfold column. apply length_map. Qed.

Lemma column_nth (d : A) h w g r c :
  has_shape h w g → r < h → nth r (column d g c) d = at_ d g r c.
Proof.
  intros Hs Hr. destruct (has_shape_lookup _ _ _ _ Hs Hr) as (row & Hrow & _).
  unfold at_, column. rewrite (nth_lookup_Some _ _ _ _ Hrow).
  apply nth_lookup_Some.
  change (map ?k g) with (k <$> g). by rewrite list_lookup_fmap, Hrow.
Qed.

End GridShape.

Section GridMap.
Context {A B : Type}.
Implicit Types (g : grid A) (r c h w : nat).

Lemma mapi_lengths (f : nat → nat → A → B) g :
  map length (mapi f g) = map length g.
Proof.
  unfold mapi. apply list_eq. intros r.
  rewrite !list_lookup_fmap, list_lookup_imap.
  destruct (g !! r) as [row|]; simpl; [| done]. by rewrite length_imap.
Qed.

Lemma has_shape_mapi h w (f : nat → nat → A → B) g :
  has_shape h w g → has_shape h w (mapi f g).
Proof.
  intros Hs. apply has_shape_lengths. rewrite mapi_lengths.
  by apply has_shape_lengths.
Qed.

Lemma at_mapi (d : A) (d' : B) (f : nat → nat → A → B) h w g r c :
  has_shape h w g → r < h → c < w →
  at_ d' (mapi f g) r c = f r c (at_ d g r c).
Proof.
  intros Hs Hr Hc. destruct (has_shape_cell _ _ _ _ _ Hs Hr Hc) as (row & x & Hrow & Hx).
  rewrite (at_lookup d g r c row x) by done.
  apply (at_lookup _ _ _ _ (imap (fun c x => f r c x) row)).
  - unfold mapi. by rewrite list_lookup_imap, Hrow.
  - by rewrite list_lookup_imap, Hx.
Qed.

Lemma map_map_lengths (f : A → B) g : map length (map (map f) g) = map length g.
Proof.
  induction g as [|row g IH]; simpl; [done |]. by rewrite length_map, IH.
Qed.

Lemma at_map_map (d : A) (d' : B) (f : A → B) h w g r c :
  has_shape h w g → r < h → c < w →
  at_ d' (map (map f) g) r c = f (at_ d g r c).
Proof.
  intros Hs Hr Hc. destruct (has_shape_cell _ _ _ _ _ Hs Hr Hc) as (row & x & Hrow & Hx).
  rewrite (at_lookup d g r c row x) by done.
  apply (at_lookup _ _ _ _ (map f row)).
  - change (map (map f) g) with (map f <$> g). by rewrite list_lookup_fmap, Hrow.
  - change (map f row) with (f <$> row). by rewrite list_lookup_fmap, Hx.
Qed.

End GridMap.

Lemma at_assign {A} (d : A) h w (sel : nat → nat → bool) (v : A) (g : grid A) r c :
  has_shape h w g → r < h → c < w →
  at_ d (assign sel v g) r c = if sel r c then v else at_ d g r c.
Proof. intros. unfold assign. by rewrite (at_mapi d d _ h w). Qed.

Lemma has_shape_assign {A} h w (sel : nat → nat → bool) (v : A) (g : grid A) :
  has_shape h w g → has_shape h w (assign sel v g).
Proof. apply has_shape_mapi. Qed.

(** ** Edge detection *)

Lemma index_of_false_prefix (l : list bool) (n i : nat) :
  index_of_false l = Some n → i < n → nth i l false = true.
Proof.
  revert n i. induction l as [|x l IH]; intros n i; simpl; [done |].
  destruct x; [| intros [= <-]; lia].
  destruct (index_of_false l) as [k|]; [| done]. simpl. intros [= <-] Hi.
  destruct i as [|i]; [done |]. apply (IH k). done. lia.
Qed.

Lemma index_of_false_None (l : list bool) (i : nat) :
  index_of_false l = None → i < length l → nth i l false = true.
Proof.
  revert i. induction l as [|x l IH]; intros i; simpl; [lia |].
  destruct x; [| done].
  destruct (index_of_false l) as [k|]; [done |]. intros _ Hi.
  destruct i as [|i]; [done |]. apply IH; [done | lia].
Qed.

(** The entries before the position that [argmin] returns are all true. *)
Lemma argmin_prefix (l : list bool) (i : nat) :
  i < argmin l → nth i l false = true.
Proof.
  unfold argmin. destruct (index_of_false l) as [n|] eqn:Hn; simpl; [| lia].
  by apply index_of_false_prefix.
Qed.

(** [argmin] returns 0 on a line that starts with true only when the whole
    line is true. *)
Lemma argmin_zero_all (l : list bool) (i : nat) :
  argmin l = 0 → nth 0 l false = true → i < length l → nth i l false = true.
Proof.
  unfold argmin. destruct l as [|x l]; simpl; [lia |].
  intros Hmin ->. destruct (index_of_false l) as [k|] eqn:Hk; [done |].
  intros Hi. destruct i as [|i]; [done |].
  apply index_of_false_None; [done | lia].
Qed.

(** The slice [-b:] with [b = argmin] of the reversed line holds only true
    entries when the line ends with true. *)
Lemma suffix_run (l : list bool) (n i : nat) :
  length l = n → nth (n - 1) l false = true →
  (neg_start n (argmin (rev l)) ≤ i)%nat → i < n →
  nth i l false = true.
Proof.
  intros Hlen Hlast Hstart Hi.
  assert (Hrev : ∀ j, j < n → nth j (rev l) false = nth (n - S j) l false).
  { intros j Hj. rewrite rev_nth by lia. by rewrite Hlen. }
  assert (Hj : nth (n - S i) (rev l) false = true).
  { destruct (argmin (rev l)) as [|b'] eqn:Hb.
    - apply argmin_zero_all; [done | |].
      + by rewrite Hrev by lia.
      + rewrite length_rev. lia.
    - apply argmin_prefix. rewrite Hb. simpl in Hstart. lia. }
  rewrite Hrev in Hj by lia. by replace (n - S (n - S i)) with i in Hj by lia.
Qed.

Lemma forallb_id_nth (l : list bool) (i : nat) :
  forallb id l = true → i < length l → nth i l false = true.
Proof.
  intros Hall Hi. rewrite forallb_forall in Hall. apply (Hall (nth i l false)).
  by apply nth_In.
Qed.

Lemma forallb_id_intro (l : list bool) :
  (∀ i, i < length l → nth i l false = true) → forallb id l = true.
Proof.
  intros Hnth. apply forallb_forall. intros x Hx.
  apply (In_nth _ _ false) in Hx as (i & Hi & <-). by apply Hnth.
Qed.

Section EdgeMask.
Variables (img : grid fval) (value : fval) (h w : nat).
Hypothesis img_shape : has_shape h w img.

Let mask1 : grid bool := map (map (fun p => feq p value)) img.
Let all_rows : list bool := map (forallb id) mask1.
Let all_cols : list bool :=
  map (fun c => forallb id (column false mask1 c)) (seq 0 w).

Local Lemma mask1_shape : has_shape h w mask1.
Proof.
  apply has_shape_lengths. unfold mask1. rewrite map_map_lengths.
  by apply has_shape_lengths.
Qed.

Local Lemma mask1_at r c :
  r < h → c < w → at_ false mask1 r c = feq (at_ NaN img r c) value.
Proof. intros. unfold mask1. by rewrite (at_map_map NaN false _ h w). Qed.

Local Lemma mask1_row r :
  r < h → ∃ row, mask1 !! r = Some row ∧ length row = w ∧ nth r mask1 [] = row.
Proof.
  intros Hr. destruct (has_shape_lookup h w mask1 r mask1_shape Hr) as (row & Hrow & Hlen).
  exists row. repeat split; try done. by apply nth_lookup_Some.
Qed.

Local Lemma all_rows_nth r :
  r < h → nth r all_rows false = forallb id (nth r mask1 []).
Proof.
  intros Hr. destruct (mask1_row r Hr) as (row & Hrow & _ & ->).
  apply nth_lookup_Some. unfold all_rows.
  change (map ?k mask1) with (k <$> mask1). by rewrite list_lookup_fmap, Hrow.
Qed.

Local Lemma all_cols_nth c :
  c < w → nth c all_cols false = forallb id (column false mask1 c).
Proof.
  intros Hc. apply nth_lookup_Some. unfold all_cols.
  change (map ?k (seq 0 w)) with (k <$> seq 0 w).
  by rewrite list_lookup_fmap, lookup_seq_lt.
Qed.

(** What the routine maintains about the mask under construction: it has
    the shape of the image, marks only pixels that hold the value, and
    marks every pixel of a row or column that holds nothing else. *)
Definition edge_inv (full : bool) (m : grid bool) : Prop :=
  has_shape h w m ∧
  (∀ r c, r < h → c < w → at_ false m r c = true → at_ false mask1 r c = true) ∧
  (full = true → ∀ r c, r < h → c < w →
     nth r all_rows false || nth c all_cols false = true → at_ false m r c = true).

Local Lemma edge_inv_assign full sel m :
  edge_inv full m →
  (∀ r c, r < h → c < w → sel r c = true → at_ false mask1 r c = true) →
  edge_inv full (assign sel true m).
Proof.
  intros (Hs & Hsound & Hfull) Hsel. split; [by apply has_shape_assign |]. split.
  - intros r c Hr Hc. rewrite (at_assign false h w) by done.
    destruct (sel r c) eqn:Hrc; [intros _; by apply Hsel | by apply Hsound].
  - intros Hf r c Hr Hc Hrc. rewrite (at_assign false h w) by done.
    destruct (sel r c); [done | by apply Hfull].
Qed.

Local Lemma edge_inv_zeros : edge_inv false (zeros_like img).
Proof.
  split; [| split; [| done]].
  - apply has_shape_lengths. unfold zeros_like. rewrite map_map_lengths.
    by apply has_shape_lengths.
  - intros r c Hr Hc. unfold zeros_like.
    by rewrite (at_map_map NaN false _ h w).
Qed.

Local Lemma all_rows_sound r c :
  r < h → c < w → nth r all_rows false = true → at_ false mask1 r c = true.
Proof.
  intros Hr Hc. rewrite all_rows_nth by done. intros Hall.
  destruct (mask1_row r Hr) as (row & _ & Hlen & Hnth).
  unfold at_. apply forallb_id_nth; [done |]. rewrite Hnth. lia.
Qed.

Local Lemma all_cols_sound r c :
  r < h → c < w → nth c all_cols false = true → at_ false mask1 r c = true.
Proof.
  intros Hr Hc. rewrite all_cols_nth by done. intros Hall.
  rewrite <- (column_nth false h w) by (done || apply mask1_shape).
  apply forallb_id_nth; [done |].
  rewrite column_length. destruct mask1_shape as [-> _]. done.
Qed.

Local Lemma edge_inv_full :
  edge_inv true
    (assign (fun _ c => nth c all_cols false) true
       (assign (fun r _ => nth r all_rows false) true (zeros_like img))).
Proof.
  destruct (edge_inv_assign false (fun _ c => nth c all_cols false)
              (assign (fun r _ => nth r all_rows false) true (zeros_like img)))
    as (Hs & Hsound & _).
  { apply edge_inv_assign; [apply edge_inv_zeros |].
    intros r c Hr Hc. by apply all_rows_sound. }
  { intros r c Hr Hc. by apply all_cols_sound. }
  split; [done |]. split; [done |]. intros _ r c Hr Hc Hrc.
  rewrite (at_assign false h w); [| by apply has_shape_assign, edge_inv_zeros | done..].
  destruct (nth c all_cols false); [done |].
  rewrite (at_assign false h w); [| apply edge_inv_zeros | done..].
  rewrite orb_false_r in Hrc. by rewrite Hrc.
Qed.

Local Lemma edge_column_inv full m col :
  col < w → edge_inv full m →
  edge_inv full
    (edge_column mask1 h
       (map (fun c => argmin (column false mask1 c)) (seq 0 w))
       (map (fun c => argmin (rev (column false mask1 c))) (seq 0 w)) m col).
Proof.
  intros Hcol Hm. unfold edge_column.
  assert (Ha : ∀ (k : nat → nat),
    nth col (map k (seq 0 w)) 0 = k col).
  { intros k. apply nth_lookup_Some. change (map k (seq 0 w)) with (k <$> seq 0 w).
    by rewrite list_lookup_fmap, lookup_seq_lt. }
  rewrite !Ha.
  assert (Hlen : length (column false mask1 col) = h).
  { rewrite column_length. by destruct mask1_shape. }
  assert (Htop : edge_inv full
    (if at_ false mask1 0 col
     then assign (fun r c => (c =? col)%nat && (r <? argmin (column false mask1 col))%nat)
            true m
     else m)).
  { destruct (at_ false mask1 0 col); [| done].
    apply edge_inv_assign; [done |]. intros r c Hr Hc Hsel.
    apply andb_true_iff in Hsel as [Hc' Hr'].
    apply Nat.eqb_eq in Hc' as ->. apply Nat.ltb_lt in Hr'.
    rewrite <- (column_nth false h w) by (done || apply mask1_shape).
    by apply argmin_prefix. }
  destruct (at_ false mask1 (h - 1) col) eqn:Hlast; [| done].
  apply edge_inv_assign; [done |]. intros r c Hr Hc Hsel.
  apply andb_true_iff in Hsel as [Hc' Hr'].
  apply Nat.eqb_eq in Hc' as ->. apply Nat.leb_le in Hr'.
  rewrite <- (column_nth false h w) by (done || apply mask1_shape).
  apply (suffix_run _ h); try done.
  rewrite (column_nth false h w) by (apply mask1_shape || lia). done.
Qed.

Local Lemma edge_row_inv full m row :
  row < h → edge_inv full m →
  edge_inv full
    (edge_row mask1 w (map argmin mask1) (map (fun r => argmin (rev r)) mask1) m row).
Proof.
  intros Hrow Hm. unfold edge_row.
  destruct (mask1_row row Hrow) as (line & Hline & Hlen & Hnth).
  assert (Ha : ∀ (k : list bool → nat), nth row (map k mask1) 0 = k line).
  { intros k. apply nth_lookup_Some. change (map k mask1) with (k <$> mask1).
    by rewrite list_lookup_fmap, Hline. }
  rewrite !Ha.
  assert (Hat : ∀ c, at_ false mask1 row c = nth c line false).
  { intros c. unfold at_. by rewrite Hnth. }
  rewrite !Hat.
  assert (Hleft : edge_inv full
    (if nth 0 line false
     then assign (fun r c => (r =? row)%nat && (c <? argmin line)%nat) true m
     else m)).
  { destruct (nth 0 line false); [| done].
    apply edge_inv_assign; [done |]. intros r c Hr Hc Hsel.
    apply andb_true_iff in Hsel as [Hr' Hc'].
    apply Nat.eqb_eq in Hr' as ->. apply Nat.ltb_lt in Hc'.
    rewrite Hat. by apply argmin_prefix. }
  destruct (nth (w - 1) line false) eqn:Hlast; [| done].
  apply edge_inv_assign; [done |]. intros r c Hr Hc Hsel.
  apply andb_true_iff in Hsel as [Hr' Hc'].
  apply Nat.eqb_eq in Hr' as ->. apply Nat.leb_le in Hc'.
  rewrite Hat. by apply (suffix_run _ w).
Qed.

Local Lemma fold_left_edge_inv full (step : grid bool → nat → grid bool) n m :
  (∀ m i, i < n → edge_inv full m → edge_inv full (step m i)) →
  edge_inv full m → edge_inv full (fold_left step (seq 0 n) m).
Proof.
  intros Hstep. induction n as [|n IH] in Hstep |- *; intros Hm; [done |].
  rewrite seq_S, fold_left_app. simpl. apply Hstep; [lia |].
  apply IH; [| done]. intros m' i Hi. apply Hstep. lia.
Qed.

(** On an image with at least one pixel the routine returns a mask of the
    shape of the image that marks only pixels holding the value and
    marks every row and every column that holds nothing else. *)
Lemma get_edge_mask_inv :
  0 < h → 0 < w → ∃ m, get_edge_mask img value = Ok m ∧ edge_inv true m.
Proof.
  intros Hh Hw. unfold get_edge_mask.
  assert (nrows img = h) as -> by (by destruct img_shape).
  rewrite (has_shape_ncols h w img) by done.
  destruct (Nat.eqb_spec h 0) as [| _]; [lia |].
  destruct (Nat.eqb_spec w 0) as [| _]; [lia |]. simpl.
  eexists. split; [reflexivity |].
  apply fold_left_edge_inv; [intros; by apply edge_row_inv |].
  apply fold_left_edge_inv; [intros; by apply edge_column_inv |].
  apply edge_inv_full.
Qed.

Local Lemma all_rows_intro r :
  r < h → (∀ c, c < w → feq (at_ NaN img r c) value = true) →
  nth r all_rows false = true.
Proof.
  intros Hr Hrow. rewrite all_rows_nth by done.
  destruct (mask1_row r Hr) as (line & _ & Hlen & Hnth).
  apply forallb_id_intro. rewrite Hnth, Hlen. intros c Hc.
  rewrite <- Hnth. change (at_ false mask1 r c = true).
  rewrite mask1_at by done. by apply Hrow.
Qed.

Local Lemma all_cols_intro c :
  c < w → (∀ r, r < h → feq (at_ NaN img r c) value = true) →
  nth c all_cols false = true.
Proof.
  intros Hc Hcol. rewrite all_cols_nth by done.
  apply forallb_id_intro. rewrite column_length.
  destruct mask1_shape as [Hlen _]. rewrite Hlen. intros r Hr.
  rewrite (column_nth false h w) by (done || apply mask1_shape).
  rewrite mask1_at by done. by apply Hcol.
Qed.

(** The same, read on the image: the mask marks only pixels equal to the
    value, and marks every pixel whose whole row or whole column is equal
    to the value. *)
Lemma get_edge_mask_marks :
  0 < h → 0 < w →
  ∃ m, get_edge_mask img value = Ok m ∧ has_shape h w m ∧
    (∀ r c, r < h → c < w →
       at_ false m r c = true → feq (at_ NaN img r c) value = true) ∧
    (∀ r c, r < h → c < w →
       (∀ c', c' < w → feq (at_ NaN img r c') value = true) ∨
       (∀ r', r' < h → feq (at_ NaN img r' c) value = true) →
       at_ false m r c = true).
Proof.
  intros Hh Hw. destruct (get_edge_mask_inv Hh Hw) as (m & Hm & Hs & Hsound & Hfull).
  exists m. split; [done |]. split; [done |]. split.
  - intros r c Hr Hc Hrc. rewrite <- mask1_at by done. by apply Hsound.
  - intros r c Hr Hc Hline. apply Hfull; try done.
    apply orb_true_iff. destruct Hline as [Hrow | Hcol].
    + left. by apply all_rows_intro.
    + right. by apply all_cols_intro.
Qed.

End EdgeMask.

(** C8. On an image made of a frame of pixels equal to the value (0 by
    default) around an interior where no pixel equals it, get_edge_mask
    returns the mask that marks exactly the frame. *)
Theorem get_edge_mask_uniform_border (h w t b l r : nat) (img : grid fval)
    (value : fval) :
  0 < h → 0 < w → has_shape h w img →
  (∀ i j, i < h → j < w →
     feq (at_ NaN img i j) value = border h w t b l r i j) →
  get_edge_mask img value = Ok (tabulate h w (border h w t b l r)).
Proof.
  intros Hh Hw Hs Hframe.
  destruct (get_edge_mask_marks img value h w Hs Hh Hw)
    as (m & -> & Hshape & Hsound & Hfull).
  f_equal. apply (grid_ext false h w); [done | apply has_shape_tabulate |].
  intros i j Hi Hj. rewrite at_tabulate by done.
  destruct (border h w t b l r i j) eqn:Hij.
  - apply Hfull; [done.. |]. unfold border in Hij.
    destruct ((i <? t)%nat || (h - b <=? i)%nat) eqn:Hrow.
    + left. intros j' Hj'. rewrite Hframe by done. unfold border.
      by rewrite Hrow.
    + right. intros i' Hi'. rewrite Hframe by done. unfold border.
      simpl in Hij. rewrite <- orb_assoc. rewrite Hij. apply orb_true_r.
  - destruct (at_ false m i j) eqn:Hm; [| done].
    apply Hsound in Hm; [| done..]. rewrite Hframe in Hm by done. congruence.
Qed.

Lemma get_edge_mask_uniform_border_witness :
  get_edge_mask Sample.framed fzero
    = Ok [ [true; true; true; true; true];
           [true; false; false; false; true];
           [true; false; false; false; true];
           [true; true; true; true; true] ].
Proof.
  apply (get_edge_mask_uniform_border 4 5 1 1 1 1 Sample.framed fzero).
  - lia.
  - lia.
  - split; [reflexivity |]. repeat constructor.
  - intros i j Hi Hj.
    assert (i = 0 ∨ i = 1 ∨ i = 2 ∨ i = 3) as [-> | [-> | [-> | ->]]] by lia;
    assert (j = 0 ∨ j = 1 ∨ j = 2 ∨ j = 3 ∨ j = 4)
      as [-> | [-> | [-> | [-> | ->]]]] by lia;
    reflexivity.
Defined.

(** ** The container *)

Lemma mapi_mapi {A B C} (f : nat → nat → B → C) (k : nat → nat → A → B)
    (g : grid A) :
  mapi f (mapi k g) = mapi (fun r c x => f r c (k r c x)) g.
Proof.
  unfold mapi. apply list_eq. intros r. rewrite !list_lookup_imap.
  destruct (g !! r) as [row|]; simpl; [| done]. f_equal.
  apply list_eq. intros c. rewrite !list_lookup_imap.
  by destruct (row !! c).
Qed.

Lemma mapi_ext {A B} (f k : nat → nat → A → B) (g : grid A) :
  (∀ r c x, f r c x = k r c x) → mapi f g = mapi k g.
Proof.
  intros Hfk. unfold mapi. apply imap_ext. intros r row _.
  apply imap_ext. intros c x _. apply Hfk.
Qed.

(** Writing the same value at the same positions a second time changes
    nothing. *)
Lemma assign_idempotent {A} (sel : nat → nat → bool) (v : A) (g : grid A) :
  assign sel v (assign sel v g) = assign sel v g.
Proof.
  unfold assign. rewrite mapi_mapi. apply mapi_ext. intros r c x.
  by destruct (sel r c).
Qed.

Lemma same_shape_assign {A B} (sel : nat → nat → bool) (v : A) (g : grid A)
    (m : grid B) :
  same_shape (assign sel v g) m = same_shape g m.
Proof. unfold same_shape, assign. by rewrite mapi_lengths. Qed.

Lemma float_at_put_float l g σ : float_at (put_float l g σ) l = g.
Proof. unfold float_at, put_float. simpl. apply lookup_total_insert_eq. Qed.

Lemma bool_at_put_float l l' g σ : bool_at (put_float l g σ) l' = bool_at σ l'.
Proof. done. Qed.

Lemma bool_at_put_bool l g σ : bool_at (put_bool l g σ) l = g.
Proof. unfold bool_at, put_bool. simpl. apply lookup_total_insert_eq. Qed.

Lemma float_at_put_bool l l' g σ : float_at (put_bool l g σ) l' = float_at σ l'.
Proof. done. Qed.

Lemma put_float_put_float l g g' σ :
  put_float l g (put_float l g' σ) = put_float l g σ.
Proof. unfold put_float. simpl. by rewrite insert_insert_eq. Qed.

Section ContainerFacts.
Context `{Astro}.

(** C9. A second call of create_masked_image with the mask unchanged
    leaves the container as the first call left it: the same pixel array
    with the same contents, and the same clean view over it. *)
Theorem create_masked_image_idempotent (self : FlowsImage) (σ : store) :
  ('(self', σ') ← create_masked_image self σ; create_masked_image self' σ')
  = create_masked_image self σ.
Proof.
  destruct (create_masked_image self σ) as [[self' σ']|e] eqn:Hfirst; [| done].
  cbn [mbind result_bind]. unfold create_masked_image in Hfirst.
  destruct (same_shape (float_at σ (image self)) (bool_at σ (mask self))) eqn:Hshape;
    [| done].
  injection Hfirst as <- <-. unfold create_masked_image.
  cbn [image mask set_clean].
  rewrite float_at_put_float, bool_at_put_float, same_shape_assign, Hshape.
  by rewrite assign_idempotent, put_float_put_float.
Qed.

(** *** The non-finite guarantee *)

Lemma same_lengths_shape {A B} (g : grid A) (m : grid B) :
  map length g = map length m → shape g = shape m.
Proof.
  unfold shape, nrows, ncols. intros Hlen.
  assert (length g = length m) as -> by (by rewrite <- (length_map length g), Hlen, length_map).
  destruct g, m; simpl in *; congruence.
Qed.

Lemma bat_in_range {A} (d : A) h w (g : grid A) r c :
  has_shape h w g → r < h → c < w → bat d g r c = at_ d g r c.
Proof.
  intros Hs Hr Hc. unfold bat.
  rewrite (has_shape_ncols h w g) by (done || lia).
  assert (nrows g = h) as -> by (by destruct Hs).
  destruct (Nat.eqb_spec h 1) as [-> | _]; destruct (Nat.eqb_spec w 1) as [-> | _];
    repeat f_equal; lia.
Qed.

Lemma has_shape_same_shape {A B} h w (g : grid A) (m : grid B) :
  has_shape h w g → has_shape h w m → same_shape g m = true.
Proof.
  intros Hg Hm. apply has_shape_lengths in Hg, Hm. unfold same_shape.
  apply bool_decide_eq_true. congruence.
Qed.

Lemma pixel_in_range h w (g : grid fval) r c row x :
  has_shape h w g → g !! r = Some row → row !! c = Some x → r < h ∧ c < w.
Proof.
  intros [Hlen Hrows] Hrow Hx. split.
  - apply lookup_lt_Some in Hrow. lia.
  - apply lookup_lt_Some in Hx.
    by rewrite (Forall_lookup_1 _ _ _ _ Hrows Hrow) in Hx.
Qed.

(** [check_finite] succeeds on a mask of the shape of the image and
    establishes the guarantee. *)
Lemma check_finite_masks h w (self : FlowsImage) (σ : store) :
  well_shaped h w self σ →
  ∃ σ', check_finite self σ = Ok σ' ∧
    nonfinite_masked self σ' ∧ well_shaped h w self σ'.
Proof.
  intros [Himg Hmask]. unfold check_finite.
  rewrite (same_lengths_shape (float_at σ (image self)) (bool_at σ (mask self))).
  2:{ apply has_shape_lengths in Himg, Hmask. congruence. }
  unfold broadcastable. rewrite !Nat.eqb_refl. simpl.
  eexists. split; [reflexivity |]. split.
  - intros r c row x Hrow Hx Hfin.
    rewrite float_at_put_bool in Hrow. rewrite bool_at_put_bool.
    destruct (pixel_in_range h w _ r c row x Himg Hrow Hx) as [Hr Hc].
    rewrite (at_mapi false false _ h w) by done.
    rewrite (bat_in_range NaN h w) by done.
    rewrite (at_lookup NaN _ r c row x) by done.
    rewrite Hfin. apply orb_true_r.
  - split.
    + by rewrite float_at_put_bool.
    + rewrite bool_at_put_bool. by apply has_shape_mapi.
Qed.

(** After construction, with no mask or with a mask of the shape of the
    image. *)
Lemma FlowsImage_new_masks h w img hdr msk (σ : store) (self : FlowsImage) σ' :
  has_shape h w (float_at σ img) →
  (∀ m, msk = Some m → has_shape h w (bool_at σ m)) →
  FlowsImage_new img hdr msk σ = Ok (self, σ') →
  nonfinite_masked self σ' ∧ well_shaped h w self σ'.
Proof.
  intros Himg Hmsk. unfold FlowsImage_new.
  destruct (WCS_new hdr) as [wc|]; [| done]. cbn [mbind result_bind].
  destruct msk as [m|].
  - match goal with |- context [check_finite ?s σ] =>
      destruct (check_finite_masks h w s σ) as (σ1 & -> & Hinv & Hws)
    end.
    { split; [done | by apply Hmsk]. }
    cbn [mbind result_bind]. by intros [= <- <-].
  - unfold alloc_bool.
    match goal with |- context [check_finite ?s ?σ0] =>
      destruct (check_finite_masks h w s σ0) as (σ1 & -> & Hinv & Hws)
    end.
    { split; cbn [image mask].
      - by rewrite float_at_put_bool.
      - rewrite bool_at_put_bool. apply has_shape_lengths.
        unfold zeros_like. rewrite map_map_lengths. by apply has_shape_lengths. }
    cbn [mbind result_bind]. by intros [= <- <-].
Qed.

(** After [update_mask] with a mask of the shape of the image. *)
Lemma update_mask_masks h w m (self : FlowsImage) (σ : store) :
  has_shape h w (float_at σ (image self)) → has_shape h w (bool_at σ m) →
  ∃ self' σ', update_mask m self σ = Ok (self', σ') ∧
    nonfinite_masked self' σ' ∧ well_shaped h w self' σ'.
Proof.
  intros Himg Hm. unfold update_mask.
  destruct (check_finite_masks h w (set_mask m self) σ) as (σ1 & -> & Hinv & Hws).
  { by split. }
  by eexists _, _.
Qed.

(** [create_masked_image] keeps the guarantee. *)
Lemma create_masked_image_masks h w (self : FlowsImage) (σ : store) :
  well_shaped h w self σ → nonfinite_masked self σ →
  ∃ self' σ', create_masked_image self σ = Ok (self', σ') ∧
    nonfinite_masked self' σ' ∧ well_shaped h w self' σ'.
Proof.
  intros [Himg Hmask] Hinv. unfold create_masked_image.
  rewrite (has_shape_same_shape h w) by done.
  eexists _, _. split; [reflexivity |]. split.
  - intros r c row x. cbn [image mask set_clean].
    rewrite float_at_put_float, bool_at_put_float. intros Hrow Hx Hfin.
    assert (Hs : has_shape h w (assign (at_ false (bool_at σ (mask self))) NaN
                                  (float_at σ (image self))))
      by (by apply has_shape_assign).
    destruct (pixel_in_range h w _ r c row x Hs Hrow Hx) as [Hr Hc].
    pose proof (at_lookup NaN _ r c row x Hrow Hx) as Hat.
    rewrite (at_assign NaN h w) in Hat by done.
    destruct (at_ false (bool_at σ (mask self)) r c) eqn:Hm; [done |].
    destruct (has_shape_cell h w _ r c Himg Hr Hc) as (row0 & x0 & Hrow0 & Hx0).
    rewrite (at_lookup NaN _ r c row0 x0) in Hat by done. subst x0.
    rewrite <- Hm. by apply (Hinv r c row0 x).
  - split; cbn [image mask set_clean].
    + rewrite float_at_put_float. by apply has_shape_assign.
    + by rewrite bool_at_put_float.
Qed.

End ContainerFacts.

(** C1 fails after apply_edge_mask. A container built from a 2 by 2 image
    with one NaN pixel marks that pixel, as the guarantee says.  After
    [apply_edge_mask()], with or without [apply_existing_mask_first], the
    pixel still holds NaN and the mask, replaced by the edge mask, no
    longer marks it: a pixel position holds a non-finite value and is not
    masked. *)
Theorem apply_edge_mask_unmasks_nonfinite :
  (∃ self σ, Sample.container = Ok (self, σ) ∧ nonfinite_masked self σ) ∧
  (∀ flag, ∃ self σ, Sample.edge_masked flag = Ok (self, σ) ∧
     float_at σ (image self) !! 0%nat = Some [Fin 1; NaN] ∧
     at_ false (bool_at σ (mask self)) 0 1 = false ∧
     ¬ nonfinite_masked self σ).
Proof.
  split.
  - destruct Sample.container as [[self σ]|e] eqn:Hc; [| by vm_compute in Hc].
    exists self, σ. split; [done |].
    unfold Sample.container, alloc_float in Hc.
    eapply (FlowsImage_new_masks 2 2); [| | exact Hc].
    + rewrite float_at_put_float. split; [done | repeat constructor].
    + intros m [=].
  - intros flag. destruct flag.
    all: eexists _, _; (split; [vm_compute; reflexivity |]);
      (split; [reflexivity |]); (split; [reflexivity |]);
      intros Hinv;
      specialize (Hinv 0%nat 1%nat [Fin 1; NaN] NaN eq_refl eq_refl eq_refl);
      by vm_compute in Hinv.
Qed.

(** A run of the container methods on the same image: the first call of
    create_masked_image builds the clean view over the pixel array and the
    mask array of the container. *)
Example create_masked_image_runs :
  match Sample.container with
  | Ok (self, σ) =>
      match create_masked_image self σ with
      | Ok (self', σ') =>
          clean self' = Some {| ma_data := image self; ma_mask := mask self |} ∧
          float_at σ' (image self') = Sample.nan_image ∧
          bool_at σ' (mask self') = [[false; true]; [false; false]]
      | Raise _ => False
      end
  | Raise _ => False
  end.
Proof. by vm_compute. Qed.

(** The Asiago sample file, loaded: the rules applied are those
    of Schmidt (its peak value, its site, its filter naming). *)
Example load_image_asiago :
  match @load_image Sample.astro Sample.file_asiago None with
  | Ok (img, σ) =>
      peakmax img = Some 56000%Z ∧ site img = Some 26%Z ∧
      photfilter img = Some (HStr "rp") ∧ exptime img = Some (HNum 60) ∧
      float_at σ (image img) = Sample.two_by_two
  | Raise _ => False
  end.
Proof. by vm_compute. Qed.

(* ===================================================================== *)
(** * Further properties of the module *)
(* ===================================================================== *)

(** ** Exposure time *)

(** X1. Whatever the class, a header without the EXPTIME card makes
    get_exptime raise the exposure-time error; the one exception is
    AstroNIRCam on a header that has FULL_EXP. *)
Theorem get_exptime_missing_card (c : inst_cls) (hdr : Header) :
  hdr !! "EXPTIME" = None →
  (c = AstroNIRCam → hdr !! "FULL_EXP" = None) →
  get_exptime c hdr = Raise (ValueError "Image exposure time could not be extracted").
Proof.
  intros Hexp Hfull. unfold get_exptime, Instrument_get_exptime.
  destruct c; rewrite ?Hexp; try done.
  by rewrite Hfull.
Qed.

Lemma get_exptime_missing_card_witness :
  get_exptime Baade {[ "NCOMBINE" := HNum 3 ]}
    = Raise (ValueError "Image exposure time could not be extracted").
Proof.
  apply get_exptime_missing_card; [reflexivity | discriminate].
Defined.

(** X2. For Baade a numeric EXPTIME is multiplied by the whole number of
    combined frames in NCOMBINE; without the NCOMBINE card the call raises
    a KeyError for it even though EXPTIME is there. *)
Theorem Baade_get_exptime_combined (hdr : Header) (e : Q) :
  hdr !! "EXPTIME" = Some (HNum e) →
  (∀ n : Z, hdr !! "NCOMBINE" = Some (HNum (inject_Z n)) →
     get_exptime Baade hdr = Ok (HNum (e * inject_Z n)%Q)) ∧
  (hdr !! "NCOMBINE" = None → get_exptime Baade hdr = Raise (KeyError "NCOMBINE")).
Proof.
  intros Hexp. unfold get_exptime, Instrument_get_exptime, getitem.
  rewrite Hexp. cbn [mbind result_bind]. split.
  - intros n ->. cbn [mbind result_bind py_int inject_Z Qnum Qden].
    by rewrite Z.quot_1_r.
  - by intros ->.
Qed.

Lemma Baade_get_exptime_combined_witness :
  get_exptime Baade (<[ "EXPTIME" := HNum 20 ]> {[ "NCOMBINE" := HNum (inject_Z 3) ]})
    = Ok (HNum (20 * inject_Z 3)%Q) ∧
  get_exptime Baade {[ "EXPTIME" := HNum 20 ]} = Raise (KeyError "NCOMBINE").
Proof.
  split.
  - refine (proj1 (Baade_get_exptime_combined _ 20 _) 3%Z _); reflexivity.
  - refine (proj2 (Baade_get_exptime_combined _ 20 _) _); reflexivity.
Defined.

(** ** Filter names *)

Lemma scan_filter_card_not_text hdr acc key :
  not_text hdr key →
  scan_filter_card hdr acc key
    = Raise (AttributeError "object has no such str method").
Proof.
  intros Hkey. unfold scan_filter_card, str_method.
  destruct (hdr !! key) as [[s | q]|] eqn:Hcard; try done. by destruct (Hkey s).
Qed.

Lemma scan_filter_cards_not_text hdr cards acc :
  (∃ key, key ∈ cards ∧ not_text hdr key) →
  foldlM (scan_filter_card hdr) cards acc
    = Raise (AttributeError "object has no such str method").
Proof.
  revert acc. induction cards as [|card cards IH]; intros acc [key [Hin Hkey]].
  - by apply elem_of_nil in Hin.
  - cbn [foldlM]. destruct (hdr !! card) as [[s | q]|] eqn:Hcard.
    + rewrite (scan_filter_card_text _ _ _ _ Hcard). cbn [mbind result_bind].
      apply IH. apply elem_of_cons in Hin as [-> | Hin]; [| eauto].
      by destruct (Hkey s).
    + rewrite scan_filter_card_not_text; [done |]. intros s. by rewrite Hcard.
    + rewrite scan_filter_card_not_text; [done |]. intros s. by rewrite Hcard.
Qed.

(** X3. In ALFOSC and NOTCAM, when the header has no FILTER card and one
    of the alternate filter cards is absent or numeric, get_photfilter
    raises an AttributeError, whatever the other cards hold. *)
Theorem NOT_alternate_card_without_text (hdr : Header) :
  hdr !! "FILTER" = None →
  ((∃ key, key ∈ ALFOSC_alt_cards ∧ not_text hdr key) →
   ALFOSC_get_photfilter hdr
     = Raise (AttributeError "object has no such str method")) ∧
  ((∃ key, key ∈ NOTCAM_alt_cards ∧ not_text hdr key) →
   NOTCAM_get_photfilter hdr
     = Raise (AttributeError "object has no such str method")).
Proof.
  intros Hfilter. split; intros Hbad.
  - unfold ALFOSC_get_photfilter. rewrite Hfilter.
    by rewrite scan_filter_cards_not_text.
  - unfold NOTCAM_get_photfilter. rewrite Hfilter.
    by rewrite scan_filter_cards_not_text.
Qed.

Lemma NOT_alternate_card_without_text_witness :
  ALFOSC_get_photfilter
    (<[ "ALFLTNM" := HStr "B_Bes 440_100" ]> {[ "FAFLTNM" := HStr "Open" ]})
    = Raise (AttributeError "object has no such str method").
Proof.
  refine (proj1 (NOT_alternate_card_without_text _ _) _); [reflexivity |].
  exists "FBFLTNM". split; [| by intros s].
  unfold ALFOSC_alt_cards. do 2 right. left.
Defined.

Lemma scan_filter_card_guarded_label hdr acc key :
  (∀ q, hdr !! key = Some (HNum q) → (q == 0)%Q) →
  scan_filter_card_guarded hdr acc key
    = Ok (acc ++ from_option (fun l => [l]) [] (hdr !! key ≫= plausible_label)).
Proof.
  intros Hnum. unfold scan_filter_card_guarded.
  destruct (hdr !! key) as [[s | q]|]; cbn [mbind option_bind from_option].
  - cbn [truthy plausible_label mbind result_bind str_method].
    destruct (negb (s =? "")); cbn [andb from_option].
    + destruct (negb (PyStr.lower (PyStr.strip s) =? "open")); [done |].
      by rewrite app_nil_r.
    + by rewrite app_nil_r.
  - cbn [truthy plausible_label from_option].
    rewrite (proj2 (Qeq_bool_iff q 0) (Hnum q eq_refl)). by rewrite app_nil_r.
  - by rewrite app_nil_r.
Qed.

Lemma scan_filter_cards_guarded hdr cards acc :
  no_numeric_card hdr cards →
  foldlM (scan_filter_card_guarded hdr) cards acc = Ok (acc ++ found_labels hdr cards).
Proof.
  revert acc. induction cards as [|key cards IH]; intros acc Hnum.
  - simpl. by rewrite app_nil_r.
  - cbn [foldlM]. rewrite scan_filter_card_guarded_label
      by (intros q; apply Hnum; left).
    cbn [mbind result_bind].
    rewrite IH by (intros k q Hk; apply Hnum; by right).
    change (found_labels hdr (key :: cards))
      with (match hdr !! key ≫= plausible_label with
            | Some l => l :: found_labels hdr cards
            | None => found_labels hdr cards
            end).
    destruct (hdr !! key ≫= plausible_label); simpl; by rewrite <- ?app_assoc.
Qed.

(** X4. Sofi tests each alternate card before it uses it: without a FILTER
    card, absent, empty and open alternate cards are skipped, exactly one
    remaining label is returned ("Ks" as "K", any other label unchanged),
    and zero or several raise the undetermined-filter error. *)
Theorem Sofi_alternate_cards_determination (hdr : Header) :
  hdr !! "FILTER" = None →
  no_numeric_card hdr ["ESO INS FILT1 ID"; "ESO INS FILT2 ID"] →
  Sofi_get_photfilter hdr =
    match found_labels hdr ["ESO INS FILT1 ID"; "ESO INS FILT2 ID"] with
    | [label] => Ok (HStr (if String.eqb label "Ks" then "K" else label))
    | _ => Raise undetermined_filter
    end.
Proof.
  intros Hfilter Hnum. unfold Sofi_get_photfilter. rewrite Hfilter.
  rewrite (scan_filter_cards_guarded _ _ _ Hnum). cbn [mbind result_bind app].
  destruct (found_labels hdr _) as [|label [|? ?]]; try done.
  unfold dict_get. destruct (String.eqb_spec label "Ks") as [-> | Hne]; [done |].
  change (list_to_map [("Ks", "K")] : gmap string string)
    with (<[ "Ks" := "K" ]> (∅ : gmap string string)).
  rewrite lookup_insert_ne by done. by rewrite lookup_empty.
Qed.

Lemma Sofi_alternate_cards_determination_witness :
  Sofi_get_photfilter {[ "ESO INS FILT1 ID" := HStr " Ks " ]} = Ok (HStr "K").
Proof.
  rewrite Sofi_alternate_cards_determination; [reflexivity | reflexivity |].
  intros key q Hkey Hq.
  repeat (apply elem_of_cons in Hkey as [-> | Hkey]; [by vm_compute in Hq |]).
  by apply elem_of_nil in Hkey.
Defined.

Section FilterNames.
Context `{Astro}.

(** X5. For every class that reads the filter from a single card, a header
    without that card makes get_photfilter raise a KeyError naming the
    card. *)
Theorem get_photfilter_missing_card (c : inst_cls) (key : string) (hdr : Header) :
  filter_card c = Some key → hdr !! key = None →
  get_photfilter c hdr = Raise (KeyError key).
Proof.
  intros Hcard Hkey.
  destruct c; try discriminate; injection Hcard as <-;
    cbn [get_photfilter]; unfold translate_card, sloan_get_photfilter, getitem;
    by rewrite Hkey.
Qed.

(** X6. In AFOSC and Schmidt a filter name that contains "sloan", in any
    letter case, is returned as its first character followed by "p",
    whatever the table of canonical filters holds. *)
Theorem sloan_filter_initial (hdr : Header) (filt : string) :
  hdr !! "FILTER" = Some (HStr filt) →
  is_substring "sloan" (PyStr.lower filt) →
  ∃ a rest, filt = String a rest ∧
    get_photfilter AFOSC hdr = Ok (HStr (String a "p")) ∧
    get_photfilter Schmidt hdr = Ok (HStr (String a "p")).
Proof.
  intros Hfilt Hsloan. apply contains_spec in Hsloan.
  destruct filt as [|a rest]; [done |]. exists a, rest. split; [done |].
  cbn [get_photfilter]. unfold sloan_get_photfilter, getitem.
  rewrite Hfilt. cbn [mbind result_bind str_method]. by rewrite Hsloan.
Qed.

(** X7. A filter name that AFOSC or Schmidt returns for a header whose
    FILTER does not contain "sloan" is a key of the table of canonical
    filters. *)
Theorem sloan_filter_canonical (by_initial : bool) (hdr : Header) (filt : string)
    (v : hval) :
  hdr !! "FILTER" = Some (HStr filt) →
  PyStr.contains "sloan" (PyStr.lower filt) = false →
  sloan_get_photfilter by_initial hdr = Ok v →
  ∃ name, v = HStr name ∧ name ∈ FILTERS_keys.
Proof.
  intros Hfilt Hsloan. unfold sloan_get_photfilter, getitem.
  rewrite Hfilt. cbn [mbind result_bind str_method]. rewrite Hsloan.
  repeat case_bool_decide.
  - intros [= <-]. eauto.
  - intros [= <-]. eauto.
  - destruct by_initial; [| done].
    destruct filt as [|a rest]; [done |]. cbn [first_char mbind result_bind].
    case_bool_decide; [| done]. intros [= <-]. eauto.
Qed.

End FilterNames.

Lemma get_photfilter_missing_card_witness :
  @get_photfilter Sample.astro PS1 {[ "FILTER" := HStr "g" ]}
    = Raise (KeyError "FPA.FILTER").
Proof. apply get_photfilter_missing_card; reflexivity. Defined.

Lemma sloan_filter_initial_witness :
  @get_photfilter Sample.astro AFOSC {[ "FILTER" := HStr "r-Sloan" ]}
    = Ok (HStr "rp").
Proof.
  pose proof (@sloan_filter_initial Sample.astro {[ "FILTER" := HStr "r-Sloan" ]}
                "r-Sloan") as Hinitial.
  destruct Hinitial as (a & rest & Heq & HA & _).
  - reflexivity.
  - exists "r-", "". reflexivity.
  - injection Heq as <- _. exact HA.
Defined.

Lemma sloan_filter_canonical_witness :
  ∃ name, HStr "rp" = HStr name ∧ name ∈ @FILTERS_keys Sample.astro.
Proof.
  apply (@sloan_filter_canonical Sample.astro false {[ "FILTER" := HStr "r" ]} "r");
    reflexivity.
Defined.

(** ** Extension search: what a result means *)

Lemma within_true p v : within p v = Ok true → ∃ n, v = HNum n.
Proof.
  unfold within. destruct (fle (Fin (- half)) p); [| intros [=]].
  destruct v as [s | n]; [intros [=] | eauto].
Qed.

Lemma target_on_true pix naxis2 naxis1 :
  target_on pix naxis2 naxis1 = Ok true →
  ∃ n1 n2, naxis1 = HNum n1 ∧ naxis2 = HNum n2 ∧ in_footprint n1 n2 pix.
Proof.
  intros Hon. pose proof Hon as Hon'. unfold target_on in Hon'.
  destruct (within (fst pix) naxis1) as [[|]|] eqn:Hx;
    cbn [mbind result_bind] in Hon'; [| discriminate Hon' | discriminate Hon'].
  destruct (within_true _ _ Hx) as [n1 ->].
  destruct (within_true _ _ Hon') as [n2 ->].
  exists n1, n2. split; [reflexivity |]. split; [reflexivity |].
  destruct (target_on_spec pix n1 n2) as (b & Hb & Hiff).
  rewrite Hon in Hb. injection Hb as <-. by apply Hiff.
Qed.

Section ExtensionResults.
Context `{Astro}.

Lemma HAWKI_search_sound hdul radec ks k :
  HAWKI_search hdul radec ks = Ok (Some k) → k ∈ ks ∧ covers hdul radec k.
Proof.
  induction ks as [|k0 ks IH]; [done |]. cbn [HAWKI_search].
  unfold list_getitem, getitem.
  destruct (hdul !! k0) as [hdu|] eqn:Hk0; [| done]. cbn [mbind result_bind].
  destruct (WCS_new (hdu_header hdu)) as [w|] eqn:Hw; [| done].
  cbn [mbind result_bind].
  destruct (hdu_header hdu !! "NAXIS2") as [v2|] eqn:Hv2; [| done].
  cbn [mbind result_bind].
  destruct (hdu_header hdu !! "NAXIS1") as [v1|] eqn:Hv1; [| done].
  cbn [mbind result_bind].
  destruct (all_world2pix w radec) as [pix|] eqn:Hpix; [| done].
  cbn [mbind result_bind].
  destruct (target_on pix v2 v1) as [[|]|] eqn:Hon; [| | done];
    cbn [mbind result_bind].
  - intros [= <-]. split; [left |].
    destruct (target_on_true _ _ _ Hon) as (n1 & n2 & -> & -> & Hin).
    exists n1, n2, pix. split; [| done]. by exists hdu, w.
  - intros Hrest. destruct (IH Hrest) as [Hin Hcov]. split; [by right | done].
Qed.

Lemma HAWKI_search_absent hdul radec k ks :
  hdul !! k = None →
  HAWKI_search hdul radec (k :: ks) = Raise (IndexError "list index out of range").
Proof. intros Hk. cbn [HAWKI_search]. unfold list_getitem. by rewrite Hk. Qed.

(** X8. An extension that HAWKI.get_ext returns is the configured fallback,
    or is one of the extensions 1 to 4 and the projected target does fall
    within its bounds. *)
Theorem HAWKI_get_ext_sound (hdul : list HDU) (target_coords : option target)
    (fallback_extension : option nat) (k : nat) :
  HAWKI_get_ext hdul target_coords fallback_extension = Ok k →
  fallback_extension = Some k ∨
  ∃ c, verify_coordinates target_coords = Ok (Some c) ∧
    (1 ≤ k ≤ 4)%nat ∧ covers hdul (icrs_radec c) k.
Proof.
  unfold HAWKI_get_ext.
  destruct (verify_coordinates target_coords) as [[c|]|] eqn:Hverify; try done.
  cbn [mbind result_bind].
  destruct (HAWKI_search hdul (icrs_radec c) [1; 2; 3; 4]%nat) as [[k'|]|] eqn:Hsearch;
    [| | done]; cbn [mbind result_bind].
  - intros [= <-]. right. exists c. split; [done |].
    destruct (HAWKI_search_sound _ _ _ _ Hsearch) as [Hin Hcov]. split; [| done].
    repeat (apply elem_of_cons in Hin as [-> | Hin]; [lia |]).
    by apply elem_of_nil in Hin.
  - destruct fallback_extension as [ext|]; [| done]. intros [= <-]. by left.
Qed.

(** X9. On a file with four units or fewer the search runs off the end of
    the file: when the target is on none of the extensions present, the
    call raises an IndexError, and a configured fallback is not used. *)
Theorem HAWKI_get_ext_short_file (hdul : list HDU) (target_coords : option target)
    (fallback_extension : option nat) (c : SkyCoord) :
  verify_coordinates target_coords = Ok (Some c) →
  (length hdul ≤ 4)%nat →
  (∀ j, (1 ≤ j < length hdul)%nat → misses hdul (icrs_radec c) j) →
  HAWKI_get_ext hdul target_coords fallback_extension
    = Raise (IndexError "list index out of range").
Proof.
  intros Hverify Hlen Hmiss. unfold HAWKI_get_ext.
  rewrite Hverify. cbn [mbind result_bind].
  assert (Hsearch : HAWKI_search hdul (icrs_radec c) [1; 2; 3; 4]%nat
                    = Raise (IndexError "list index out of range")).
  { destruct (decide (length hdul ≤ 1)%nat).
    { apply HAWKI_search_absent, lookup_ge_None_2. lia. }
    rewrite HAWKI_search_misses by (apply Hmiss; lia).
    destruct (decide (length hdul ≤ 2)%nat).
    { apply HAWKI_search_absent, lookup_ge_None_2. lia. }
    rewrite HAWKI_search_misses by (apply Hmiss; lia).
    destruct (decide (length hdul ≤ 3)%nat).
    { apply HAWKI_search_absent, lookup_ge_None_2. lia. }
    rewrite HAWKI_search_misses by (apply Hmiss; lia).
    apply HAWKI_search_absent, lookup_ge_None_2. lia. }
  by rewrite Hsearch.
Qed.

(** X10. A target given as a tuple that is not a pair counts as no target:
    HAWKI.get_ext raises the missing-target error without looking at the
    file. *)
Theorem HAWKI_get_ext_not_a_pair (hdul : list HDU) (xs : list fval)
    (fallback_extension : option nat) :
  length xs ≠ 2%nat →
  HAWKI_get_ext hdul (Some (inr xs)) fallback_extension
    = Raise (ValueError
        "TARGET_COORD is needed for HAWKI images to find the correct extension").
Proof.
  intros Hlen. by destruct xs as [|a [|b [|d xs]]].
Qed.

End ExtensionResults.

Lemma HAWKI_get_ext_sound_witness :
  None = Some 3%nat ∨
  ∃ c, @verify_coordinates Sample.astro (Some (inr [Fin 25; Fin 5])) = Ok (Some c) ∧
    (1 ≤ 3 ≤ 4)%nat ∧ @covers Sample.astro Sample.file_mosaic (icrs_radec c) 3.
Proof.
  apply (@HAWKI_get_ext_sound Sample.astro Sample.file_mosaic
           (Some (inr [Fin 25; Fin 5])) None 3).
  by vm_compute.
Defined.

Lemma HAWKI_get_ext_short_file_witness :
  @HAWKI_get_ext Sample.astro (take 3 Sample.file_mosaic)
     (Some (inr [Fin 25; Fin 5])) (Some 1%nat)
    = Raise (IndexError "list index out of range").
Proof.
  apply (@HAWKI_get_ext_short_file Sample.astro (take 3 Sample.file_mosaic)
           (Some (inr [Fin 25; Fin 5])) (Some 1%nat) Sample.target_on_third).
  - reflexivity.
  - simpl. lia.
  - intros j Hj. simpl in Hj.
    assert (j = 1 ∨ j = 2)%nat as [-> | ->] by lia.
    + eexists _, _, _. split.
      * exists (Sample.mosaic_ext 1), (hdu_header (Sample.mosaic_ext 1)).
        repeat split; done.
      * intros (x & y & [= <- <-] & _ & Hhi & _). by vm_compute in Hhi.
    + eexists _, _, _. split.
      * exists (Sample.mosaic_ext 2), (hdu_header (Sample.mosaic_ext 2)).
        repeat split; done.
      * intros (x & y & [= <- <-] & _ & Hhi & _). by vm_compute in Hhi.
Defined.

Lemma HAWKI_get_ext_not_a_pair_witness :
  @HAWKI_get_ext Sample.astro Sample.file_mosaic (Some (inr [Fin 25])) (Some 2%nat)
    = Raise (ValueError
        "TARGET_COORD is needed for HAWKI images to find the correct extension").
Proof. apply HAWKI_get_ext_not_a_pair. simpl. lia. Defined.
